(** * JSON utilities of spark-rapids-jni: row concatenation, struct
      reassembly and leaf post-processing

    A shallow embedding of [json_utils.cu] (namespace [spark_rapids_jni]):
    [concat_json], [make_structs], [cast_strings_to_booleans] and
    [remove_quotes], with the pieces of libcudf, CUB and Thrust they call.

    Conventions.
    - A byte is a [Byte.byte]; [u8] reads it as an unsigned value and
      [to_char] as the (signed, 8-bit) C++ [char] of the CUDA/x86-64 target.
    - Sizes and indices are [Z], as [cudf::size_type] and [int] are; a row's
      size is below 2^31 - 4, so that the [int] arithmetic of the source does
      not wrap.
    - A column is modelled unsliced (offset 0).  A strings column is kept by
      rows: the bytes lying between two consecutive offsets, also for a null
      row.  [null_count] is the number of unset validity bits.
    - A validity bitmask is a list of 32-bit words, least significant bit
      first, as [cudf::bitmask_type] is.
    - Exceptions are values of [result].
    - A library call is modelled after the contract of the library:
      [cudf::string_view::operator[]] returns the character at a _character_
      position, [cub::DeviceHistogram::HistogramEven] takes the number of bin
      boundaries and an exclusive upper bound, and
      [cudf::strings::detail::join_strings] takes the separator and the
      replacement of null rows. *)

From Stdlib Require Import Ascii String.
From Stdlib.Strings Require Import Byte.
From Stdlib Require Import ZArith Bool Lia List.
Import ListNotations.
Local Open Scope Z_scope.
Set Warnings "-register-all".

(** ** Exceptions *)

Inductive exn : Type :=
| std_logic_error (what : string)
| cudf_logic_error (what : string).

Inductive result (A : Type) : Type :=
| Ok (a : A)
| Throw (e : exn).
Arguments Ok {A} a.
Arguments Throw {A} e.

Definition bind {A B : Type} (m : result A) (k : A -> result B) : result B :=
  match m with
  | Ok a => k a
  | Throw e => Throw e
  end.

Notation "x <- m ;; k" := (bind m (fun x => k))
  (at level 61, m at next level, right associativity).

(** [CUDF_EXPECTS(cond, reason)] throws [cudf::logic_error] when [cond] is
    false. *)
Definition CUDF_EXPECTS (cond : bool) (reason : string) : result unit :=
  if cond then Ok tt else Throw (cudf_logic_error reason).

(** ** Bytes and characters *)

Definition u8 (b : byte) : Z := Z.of_N (Byte.to_N b).

(** [static_cast<char>]: the low eight bits, read as a signed value. *)
Definition to_char (v : Z) : Z := (v + 128) mod 256 - 128.

Definition byte_of_char (c : Z) : byte :=
  match Byte.of_N (Z.to_N (c mod 256)) with
  | Some b => b
  | None => x00
  end.

Definition CHAR_MIN : Z := -128.
Definition CHAR_MAX : Z := 127.

(** The counting range [0, n). *)
Definition iota (n : Z) : list Z := map Z.of_nat (seq 0 (Z.to_nat n)).

Definition b2z (b : bool) : Z := if b then 1 else 0.

(** A character literal of the source, as its code. *)
Definition chr (a : Ascii.ascii) : Z := Z.of_N (Ascii.N_of_ascii a).
Arguments chr a%_char.

Definition count_if {A : Type} (p : A -> bool) (l : list A) : Z :=
  Z.of_nat (length (filter p l)).

(** ** libcudf *)

Module cudf.

Inductive type_id : Type := EMPTY | INT32 | INT64 | FLOAT64 | BOOL8 | STRING | LIST | STRUCT.

(** *** Validity bitmasks (cudf/utilities/bit.hpp) *)

Definition bitmask : Type := list Z.

Definition word_index (bit_index : Z) : Z := bit_index / 32.
Definition intra_word_index (bit_index : Z) : Z := bit_index mod 32.

Definition bit_is_set (mask : bitmask) (bit_index : Z) : bool :=
  Z.testbit (nth (Z.to_nat (word_index bit_index)) mask 0) (intra_word_index bit_index).

Definition num_bitmask_words (number_of_bits : Z) : Z := (number_of_bits + 31) / 32.

(** One mask word as the warp ballot of [valid_if]'s kernel builds it: lane
    [lane] contributes bit [lane]. *)
Definition ballot (f : Z -> bool) : Z :=
  fold_left (fun acc lane => if f lane then Z.lor acc (Z.shiftl 1 lane) else acc) (iota 32) 0.

(** [cudf::detail::valid_if(begin, end, p)]: bit [i] of the mask is set iff
    [p] holds of element [i]; a thread past the end contributes a zero bit.
    Returns the mask and the number of elements for which [p] fails. *)
Definition valid_if {A : Type} (range : list A) (p : A -> bool) : bitmask * Z :=
  let size := Z.of_nat (length range) in
  let bit_is_valid (i : Z) :=
    (i <? size) && match nth_error range (Z.to_nat i) with
                   | Some a => p a
                   | None => false
                   end in
  let null_mask := map (fun w => ballot (fun lane => bit_is_valid (32 * w + lane)))
                       (iota (num_bitmask_words size)) in
  let valid_count := count_if p range in
  (null_mask, size - valid_count).

(** [rmm::device_buffer::data()] of a mask buffer, as handed to a
    [column_view]: the null pointer, [None], for a buffer of no bytes, which
    is what [valid_if] returns for an empty range. *)
Definition mask_data (null_mask : bitmask) : option bitmask :=
  match null_mask with
  | [] => None
  | _ :: _ => Some null_mask
  end.

(** *** Columns *)

Inductive column_data : Type :=
| no_data
| bool_data (d : list bool)
| string_data (rows : list (list byte)).

Inductive column : Type :=
  Column (type : type_id) (size : Z) (data : column_data)
         (null_mask : option bitmask) (children : list column).

Definition type (c : column) : type_id := let (t, _, _, _, _) := c in t.
Definition size (c : column) : Z := let (_, n, _, _, _) := c in n.
Definition data (c : column) : column_data := let (_, _, d, _, _) := c in d.
Definition null_mask (c : column) : option bitmask := let (_, _, _, m, _) := c in m.
Definition children (c : column) : list column := let (_, _, _, _, cs) := c in cs.

Definition nullable (c : column) : bool :=
  match null_mask c with Some _ => true | None => false end.

(** [column_device_view::is_valid]: a column without a mask has no null. *)
Definition is_valid (c : column) (idx : Z) : bool :=
  match null_mask c with
  | Some m => bit_is_set m idx
  | None => true
  end.

Definition is_null (c : column) (idx : Z) : bool := negb (is_valid c idx).

Definition null_count (c : column) : Z := count_if (is_null c) (iota (size c)).

(** [element<bool>(idx)] and [element<string_view>(idx)]. *)
Definition element_bool (c : column) (idx : Z) : bool :=
  match data c with
  | bool_data d => nth (Z.to_nat idx) d false
  | _ => false
  end.

Definition element (c : column) (idx : Z) : list byte :=
  match data c with
  | string_data rows => nth (Z.to_nat idx) rows []
  | _ => []
  end.

(** [begin<bool>() .. end<bool>()] of a BOOL8 column. *)
Definition bool_range (c : column) : list bool := map (element_bool c) (iota (size c)).

(** The chars buffer of a strings column, [chars_begin] up to
    [chars_size] bytes. *)
Definition chars (c : column) : list byte :=
  match data c with
  | string_data rows => concat rows
  | _ => []
  end.

(** [cudf::detail::copy_bitmask(view)]: the words covering the rows, or no
    mask for a column that is not nullable. *)
Definition copy_bitmask (c : column) : option bitmask :=
  match null_mask c with
  | Some m => Some (firstn (Z.to_nat (num_bitmask_words (size c))) m)
  | None => None
  end.

(** *** [cudf::string_view] (cudf/strings/string_view.cuh and
    cudf/strings/detail/utf8.hpp)

    A string view is a run of UTF-8 bytes.  [size_bytes] counts bytes, while
    [operator[]] takes a _character_ position: it walks the lead bytes up to
    that character, and yields 0 past the last character. *)

Definition size_bytes (d_str : list byte) : Z := Z.of_nat (length d_str).

Definition is_begin_utf8_char (b : Z) : bool := negb (Z.land b 0xC0 =? 0x80).

Definition bytes_in_utf8_byte (b : Z) : Z :=
  1 + b2z (Z.land b 0xF0 =? 0xF0) + b2z (Z.land b 0xE0 =? 0xE0)
    + b2z (Z.land b 0xC0 =? 0xC0) - b2z (Z.land b 0xC0 =? 0x80).

(** [length()]: the number of characters. *)
Definition characters_in_string (d_str : list byte) : Z :=
  count_if (fun b => is_begin_utf8_char (u8 b)) d_str.

(** The byte offset of character [pos], and what is left of [pos] when the
    bytes run out first. *)
Fixpoint bytes_to_character_position (d_str : list byte) (pos bytes : Z) : Z * Z :=
  match d_str with
  | [] => (bytes, pos)
  | b :: rest =>
      if 0 <? pos then
        let width := bytes_in_utf8_byte (u8 b) in
        bytes_to_character_position rest (if width =? 0 then pos else pos - 1) (bytes + width)
      else (bytes, pos)
  end.

Definition byte_offset (d_str : list byte) (pos : Z) : Z :=
  if characters_in_string d_str =? size_bytes d_str then pos
  else fst (bytes_to_character_position d_str pos 0).

(** The character starting at [str], packed as a [char_utf8]: its bytes,
    first byte in the highest position.  The library reads as many bytes as
    the lead byte announces without looking at the end of the row: in a row
    that ends inside a character it reads what follows the row in the chars
    buffer.  Such a missing byte reads as 0 here.  A row of well-formed
    UTF-8 has none missing.  Whatever the missing bytes are, a character of
    more than one byte has a code of 256 or more and equals no character
    literal of the source; only its conversion to [char] in the row
    classifier, which keeps its last byte, depends on them. *)
Definition to_char_utf8 (str : list byte) : Z :=
  let byte_at (k : nat) := u8 (nth k str x00) in
  let chr_width := bytes_in_utf8_byte (byte_at 0%nat) in
  let character := byte_at 0%nat in
  if 1 <? chr_width then
    let character := Z.lor (Z.shiftl character 8) (byte_at 1%nat) in
    if 2 <? chr_width then
      let character := Z.lor (Z.shiftl character 8) (byte_at 2%nat) in
      if 3 <? chr_width then Z.lor (Z.shiftl character 8) (byte_at 3%nat)
      else character
    else character
  else character.

(** [d_str[pos]], that is [string_view::operator[](size_type pos)]: the
    single UTF-8 character at the given character position. *)
Definition char_at (d_str : list byte) (pos : Z) : Z :=
  let offset := byte_offset d_str pos in
  if size_bytes d_str <=? offset then 0
  else to_char_utf8 (skipn (Z.to_nat offset) d_str).

(** A [char] passed where a [char_utf8] (an unsigned 32-bit value) is
    expected. *)
Definition char_utf8_of_char (ch : Z) : Z := ch mod 2 ^ 32.

(** *** The offsets child of a strings column *)

Definition offsets (c : column) (idx : Z) : Z :=
  match data c with
  | string_data rows => fold_right Z.add 0 (map size_bytes (firstn (Z.to_nat idx) rows))
  | _ => 0
  end.

(** *** [cudf::strings::detail::join_strings(input, separator, narep)]

    One row holding every row of [input] followed by the separator, the last
    one excepted.  A null row is written as [narep] when [narep] is valid, and
    is left out with its separator otherwise.  An empty input gives an empty
    column. *)
Definition join_strings (input : column) (separator : list byte)
           (narep : option (list byte)) : column :=
  if size input =? 0 then Column STRING 0 (string_data []) None []
  else
    let process_string (idx : Z) : list byte * list byte :=
      let d_sep := if idx + 1 <? size input then separator else [] in
      if is_null input idx then
        match narep with
        | Some d_narep => (d_narep, d_sep)
        | None => ([], [])
        end
      else (element input idx, d_sep) in
    let joined := concat (map (fun idx => let (d_str, d_sep) := process_string idx in
                                          d_str ++ d_sep) (iota (size input))) in
    let all_null := (null_count input =? size input)
                    && match narep with Some _ => false | None => true end in
    Column STRING 1 (string_data [joined]) (if all_null then Some [0] else None) [].

End cudf.

(** ** CUB *)

Module cub.

Fixpoint increment (d_histogram : list Z) (bin : nat) : list Z :=
  match d_histogram, bin with
  | [], _ => []
  | counter :: rest, O => ((counter + 1) mod 2 ^ 32) :: rest
  | counter :: rest, S bin' => counter :: increment rest bin'
  end.

(** [cub::DeviceHistogram::HistogramEven(d_samples, d_histogram, num_levels,
    lower_level, upper_level, num_samples)].

    [num_levels] is the number of bin _boundaries_: the histogram has
    [num_levels - 1] bins of equal width over [lower_level, upper_level),
    the upper bound excluded.  A sample outside that range is not counted.
    The bins are reset and then counted into [uint32_t] counters; what lies
    in [d_histogram] after the last bin is left as it was. *)
Definition HistogramEven (d_samples : list Z) (d_histogram : list Z)
           (num_levels lower_level upper_level : Z) : list Z :=
  let num_bins := num_levels - 1 in
  let reset := repeat 0 (Z.to_nat num_bins) ++ skipn (Z.to_nat num_bins) d_histogram in
  fold_left
    (fun histogram sample =>
       if (lower_level <=? sample) && (sample <? upper_level) then
         let bin := (sample - lower_level) * num_bins / (upper_level - lower_level) in
         increment histogram (Z.to_nat bin)
       else histogram)
    d_samples reset.

End cub.

(** ** Thrust *)

Module thrust.

Fixpoint find_if_from (n : nat) (first : Z) (pred : Z -> bool) : Z :=
  match n with
  | O => first
  | S n' => if pred first then first else find_if_from n' (first + 1) pred
  end.

(** [thrust::find_if] over the counting range [first, last): the first
    position where [pred] holds, or [last]. *)
Definition find_if (first last : Z) (pred : Z -> bool) : Z :=
  find_if_from (Z.to_nat (last - first)) first pred.

(** [thrust::tabulate]: position [idx] receives [f idx]. *)
Definition tabulate {A : Type} (n : Z) (f : Z -> A) : list A := map f (iota n).

End thrust.

(** ** [spark_rapids_jni::detail] *)

Module detail.
Import cudf.

Definition not_whitespace (ch : Z) : bool :=
  negb (ch =? chr " ") && negb (ch =? chr "013") && negb (ch =? chr "010")
  && negb (ch =? chr "009").

Definition can_be_delimiter (c : Z) : bool :=
  if (c =? chr "{") || (c =? chr "[") || (c =? chr "}") || (c =? chr "]")
     || (c =? chr ",") || (c =? chr ":") || (c =? chr "034") || (c =? chr "'")
     || (c =? chr "\") || (c =? chr " ") || (c =? chr "009") || (c =? chr "013")
  then false
  else true.

(** [for (; i < size; ++i) { ch = d_str[i]; if (not_whitespace(ch)) { break; } }]
    from position [i] on: the final [i] and [ch], and whether the loop was
    left by [break].  At most [size - i] iterations run. *)
Fixpoint skip_whitespace (fuel : nat) (d_str : list byte) (size i ch : Z) : Z * Z * bool :=
  match fuel with
  | O => (i, ch, false)
  | S fuel' =>
      if i <? size then
        let ch := to_char (char_at d_str i) in
        if not_whitespace (char_utf8_of_char ch) then (i, ch, true)
        else skip_whitespace fuel' d_str size (i + 1) ch
      else (i, ch, false)
  end.

(** The body of the per-row kernel of [concat_json]: the pair written to
    [(is_valid_input[idx], is_null_or_empty[idx])].  [ch] is declared without
    a value in the source; [ch0] stands for whatever it holds. *)
Definition classify_row_from (ch0 : Z) (input : column) (idx : Z) : bool * bool :=
  if is_null input idx then (false, true)
  else
    let d_str := element input idx in
    let size := size_bytes d_str in
    let start_character := chr "{" in
    let finish (i ch : Z) : bool * bool :=
      let not_eol := i <? size in
      if not_eol && negb (ch =? start_character) then (false, false)
      else (not_eol, negb not_eol) in
    (* Skip the very first whitespace characters. *)
    let '(i, ch, _) := skip_whitespace (Z.to_nat size) d_str size 0 ch0 in
    if (i + 3 <? size)
       && ((char_at d_str i =? chr "n") && (char_at d_str (i + 1) =? chr "u")
           && (char_at d_str (i + 2) =? chr "l") && (char_at d_str (i + 3) =? chr "l"))
    then
      let i := i + 4 in
      (* Skip the very last whitespace characters. *)
      let '(i, ch, stopped) := skip_whitespace (Z.to_nat (size - i)) d_str size i ch in
      let is_null_literal := negb stopped in
      if is_null_literal then (false, false)
      else finish i ch
    else finish i ch.

Definition classify_row : column -> Z -> bool * bool := classify_row_from 0.

(** The predicate of the [find_if] of [concat_json]. *)
Definition is_free_delimiter (zero_level_idx : Z) (counts : list Z) (idx : Z) : bool :=
  let count := nth (Z.to_nat idx) counts 0 in
  if 0 <? count then false
  else
    let first_non_existing_char := to_char (idx - zero_level_idx) in
    can_be_delimiter first_non_existing_char.

Definition delimiter_error : exn :=
  std_logic_error "Cannot find any character suitable as delimiter during joining json strings.".

(** The histogram of the chars buffer and the search of the delimiter. *)
Definition select_delimiter (input : column) : result Z :=
  let num_levels := 256 in
  let lower_level := CHAR_MIN in
  let upper_level := CHAR_MAX in
  let histogram := repeat 0 (Z.to_nat num_levels) in
  let histogram :=
    cub.HistogramEven (map (fun b => to_char (u8 b)) (chars input)) histogram
                      num_levels lower_level upper_level in
  let zero_level_idx := - lower_level in
  let zero_level_it := 0 + zero_level_idx in
  let end_ := 0 + num_levels in
  let first_zero_count_pos :=
    thrust.find_if zero_level_it end_ (is_free_delimiter zero_level_idx histogram) in
  if first_zero_count_pos =? end_ then Throw delimiter_error
  else Ok (to_char (first_zero_count_pos - zero_level_it)).

Definition concat_json (input : column) : result (column * list byte * Z) :=
  let output := map (classify_row input) (iota (size input)) in
  let is_valid_input := map fst output in
  let is_null_or_empty := map snd output in
  delimiter <- select_delimiter input ;;
  let '(null_mask, null_count) := valid_if is_valid_input (fun b => b) in
  let input_applied_null :=
    if null_count =? cudf.null_count input then Column EMPTY 0 no_data None []
    else Column STRING (size input) (data input) (Some null_mask) [] in
  let concat_strings :=
    join_strings (if null_count =? cudf.null_count input then input else input_applied_null)
                 [byte_of_char delimiter]
                 (Some (list_byte_of_string "{}")) in
  Ok (Column BOOL8 (size input) (bool_data is_null_or_empty) None [],
      chars concat_strings,
      delimiter).

Fixpoint check_row_counts (children : list column) (row_count : Z) : result unit :=
  match children with
  | [] => Ok tt
  | col :: rest =>
      _ <- CUDF_EXPECTS (size col =? row_count)
                        "All columns must have the same number of rows." ;;
      check_row_counts rest row_count
  end.

(** The result is [None] for [nullptr]. *)
Definition make_structs (children : list column) (is_null : column) : result (option column) :=
  match children with
  | [] => Ok None
  | front :: _ =>
      let row_count := size front in
      _ <- check_row_counts children row_count ;;
      let '(null_mask, null_count) := valid_if (bool_range is_null) negb in
      let structs := Column STRUCT row_count no_data (mask_data null_mask) children in
      Ok (Some structs)
  end.

(** The lambda tabulated by [cast_strings_to_booleans]: the value and the
    validity of row [idx]. *)
Definition boolean_of_row (input : column) (idx : Z) : bool * bool :=
  let no_value := (false, false) in
  if is_valid input idx then
    let d_str := element input idx in
    if (size_bytes d_str =? 4) && (char_at d_str 0 =? chr "t")
       && (char_at d_str 1 =? chr "r") && (char_at d_str 2 =? chr "u")
       && (char_at d_str 3 =? chr "e")
    then (true, true)
    else if (size_bytes d_str =? 5) && (char_at d_str 0 =? chr "f")
            && (char_at d_str 1 =? chr "a") && (char_at d_str 2 =? chr "l")
            && (char_at d_str 3 =? chr "s") && (char_at d_str 4 =? chr "e")
    then (false, true)
    else no_value
  else
    (* Either null input, or the input string is neither `true` nor `false`. *)
    no_value.

(** The BOOL8 column, yet without a mask, and the validity of each row. *)
Definition cast_strings_to_booleans (input : column) : column * list bool :=
  let output_it := thrust.tabulate (size input) (boolean_of_row input) in
  (Column BOOL8 (size input) (bool_data (map fst output_it)) None [], map snd output_it).

(** [cub::DeviceMemcpy::Batched] into a fresh buffer: string [idx] is the
    [src_sizes idx] bytes found at [src_ptrs idx], written at the offset that
    the sizes before it add up to; the buffer is returned string by
    string.  A source pointer is an offset into the chars buffer [chars]. *)
Definition make_chars_buffer (chars : list byte) (src_ptrs src_sizes : Z -> Z)
           (string_count : Z) : list (list byte) :=
  map (fun idx => firstn (Z.to_nat (src_sizes idx)) (skipn (Z.to_nat (src_ptrs idx)) chars))
      (iota string_count).

(** The lambda tabulated into [output_sizes] by [remove_quotes]. *)
Definition output_size_of_row (input : column) (idx : Z) : Z :=
  if is_null input idx then 0
  else
    let d_str := element input idx in
    let size := size_bytes d_str in
    (* Need to check for size, since the input string may contain just a single
       character.  Such input should not be considered as quoted. *)
    let is_quoted := (1 <? size) && (char_at d_str 0 =? chr "034")
                     && (char_at d_str (size - 1) =? chr "034") in
    if is_quoted then size - 2 else size.

Definition remove_quotes (input : column) : column :=
  let string_count := size input in
  let output_sizes := thrust.tabulate string_count (output_size_of_row input) in
  let index_pair_fn (idx : Z) : Z * Z :=
    let start_offset := offsets input idx in
    let end_offset := offsets input (idx + 1) in
    let input_size := end_offset - start_offset in
    let output_size := nth (Z.to_nat idx) output_sizes 0 in
    (start_offset + (if input_size =? output_size then 0 else 1), output_size) in
  let chars_data :=
    make_chars_buffer (chars input) (fun idx => fst (index_pair_fn idx))
                      (fun idx => snd (index_pair_fn idx)) string_count in
  Column STRING string_count (string_data chars_data) (copy_bitmask input) [].

End detail.

(** ** [spark_rapids_jni]: the public entry points *)

Definition concat_json (input : cudf.column) : result (cudf.column * list byte * Z) :=
  detail.concat_json input.

Definition make_structs (children : list cudf.column) (is_null : cudf.column)
  : result (option cudf.column) :=
  detail.make_structs children is_null.

Definition cast_strings_to_booleans (input : cudf.column) : cudf.column :=
  let '(output, validity) := detail.cast_strings_to_booleans input in
  let '(null_mask, null_count) := cudf.valid_if validity (fun b => b) in
  if 0 <? null_count
  then cudf.Column (cudf.type output) (cudf.size output) (cudf.data output)
                   (Some null_mask) (cudf.children output)
  else cudf.Column (cudf.type output) (cudf.size output) (cudf.data output)
                   None (cudf.children output).

Definition remove_quotes (input : cudf.column) : cudf.column :=
  detail.remove_quotes input.

(** ** Vocabulary of the statements *)

Definition bytes_of (s : string) : list byte := list_byte_of_string s.

(** Well-formed UTF-8, which libcudf requires of the rows of a strings column:
    every lead byte is followed by as many continuation bytes as its width
    announces.  [pending] continuation bytes are still due. *)
Fixpoint utf8_ok (pending : nat) (s : list byte) : bool :=
  match s with
  | [] => Nat.eqb pending 0
  | b :: rest =>
      let width := cudf.bytes_in_utf8_byte (u8 b) in
      match pending with
      | O => (1 <=? width) && utf8_ok (Z.to_nat (width - 1)) rest
      | S pending' => (width =? 0) && utf8_ok pending' rest
      end
  end.

Definition well_formed_utf8 (s : list byte) : Prop := utf8_ok 0 s = true.

Definition is_ascii (b : byte) : Prop := u8 b < 128.

(** The whitespace of the row classifier: space, tab, CR, LF. *)
Definition is_whitespace (b : byte) : bool :=
  (u8 b =? chr " ") || (u8 b =? chr "009") || (u8 b =? chr "013") || (u8 b =? chr "010").

Fixpoint trim_leading_whitespace (s : list byte) : list byte :=
  match s with
  | [] => []
  | b :: rest => if is_whitespace b then trim_leading_whitespace rest else s
  end.

Fixpoint leading_whitespace (s : list byte) : list byte :=
  match s with
  | [] => []
  | b :: rest => if is_whitespace b then b :: leading_whitespace rest else []
  end.

(** What [ch = d_str[i]] leaves in [ch] when the character at position [i]
    starts the bytes [rest]. *)
Definition seen_char (rest : list byte) : Z := to_char (cudf.to_char_utf8 rest).

(** The comparisons [d_str[i] == lit[0] && d_str[i + 1] == lit[1] && ...]. *)
Fixpoint matches_at (d_str : list byte) (i : Z) (lit : list byte) : bool :=
  match lit with
  | [] => true
  | l :: lit' => (cudf.char_at d_str i =? u8 l) && matches_at d_str (i + 1) lit'
  end.

(** How often the byte with [char] value [c] occurs among the samples that
    [HistogramEven] counts, that is, among those in [CHAR_MIN, CHAR_MAX). *)
Definition counted (c : Z) (samples : list Z) : Z :=
  count_if (fun x => (CHAR_MIN <=? x) && (x <? CHAR_MAX) && (x =? c)) samples.

(** The two flags that the row classifier of [concat_json] computes. *)
Definition is_candidate_object (input : cudf.column) (idx : Z) : bool :=
  fst (detail.classify_row input idx).
Definition is_null_or_empty (input : cudf.column) (idx : Z) : bool :=
  snd (detail.classify_row input idx).

(** Payloads joined by one delimiter byte between consecutive rows. *)
Fixpoint join_with (delimiter : byte) (payloads : list (list byte)) : list byte :=
  match payloads with
  | [] => []
  | [p] => p
  | p :: rest => p ++ delimiter :: join_with delimiter rest
  end.

(** What a row contributes to the document of [concat_json]. *)
Definition payload (input : cudf.column) (idx : Z) : list byte :=
  if is_candidate_object input idx then cudf.element input idx else bytes_of "{}".

(** The document as the specification words it: the rows that are not
    candidates contribute nothing, and the joined rows are wrapped in a pair
    of braces. *)
Definition framed_payload (input : cudf.column) (idx : Z) : list byte :=
  if is_candidate_object input idx then cudf.element input idx else [].
Definition framed_document (input : cudf.column) (delimiter : byte) : list byte :=
  bytes_of "{" ++ join_with delimiter (map (framed_payload input) (iota (cudf.size input)))
           ++ bytes_of "}".

(** The classification as the specification words it: a row that is the
    literal [null], whitespace around it apart, is flagged null-or-empty; a row
    whose first byte after the leading whitespace is an opening brace is a
    candidate; every other row that is not null is neither. *)
Fixpoint strip_prefix (prefix text : list byte) : option (list byte) :=
  match prefix, text with
  | [], _ => Some text
  | p :: prefix', b :: text' => if Byte.eqb p b then strip_prefix prefix' text' else None
  | _ :: _, [] => None
  end.

Definition specified_classification (input : cudf.column) (idx : Z) : bool * bool :=
  if cudf.is_null input idx then (false, true)
  else
    let text := trim_leading_whitespace (cudf.element input idx) in
    match strip_prefix (bytes_of "null") text with
    | Some rest =>
        match trim_leading_whitespace rest with
        | [] => (false, true)
        | _ :: _ => (false, false)
        end
    | None =>
        match text with
        | b :: _ => if u8 b =? chr "{" then (true, false) else (false, false)
        | [] => (false, false)
        end
    end.

(** The characters that the specification lists as meaningful to the bulk
    reader: structural brackets, comma, colon, quote, backslash, and
    whitespace (space, tab, CR, LF). *)
Definition meaningful_to_reader (c : Z) : bool :=
  (c =? chr "{") || (c =? chr "}") || (c =? chr "[") || (c =? chr "]")
  || (c =? chr ",") || (c =? chr ":") || (c =? chr "034") || (c =? chr "\")
  || negb (detail.not_whitespace c).

(** The characters that [can_be_delimiter] rejects. *)
Definition disallowed : list Z :=
  map chr ["{"; "["; "}"; "]"; ","; ":"; "034"; "'"; "\"; " "; "009"; "013"]%char.

(** A quoted row as the specification words it: longer than one byte, with a
    double quote as its first and as its last byte; and the row without these
    two bytes. *)
Definition quoted (s : list byte) : bool :=
  (1 <? cudf.size_bytes s) && (u8 (hd x00 s) =? chr "034") && (u8 (last s x00) =? chr "034").
Definition unquoted (s : list byte) : list byte := removelast (tl s).

(** The widths that the lead bytes of [s] announce, added up. *)
Definition total_width (s : list byte) : Z :=
  fold_right (fun b acc => cudf.bytes_in_utf8_byte (u8 b) + acc) 0 s.

(** The two flags of a row that is not null, computed from the text that
    follows its leading whitespace: no text at all; text that begins with
    [null], judged by what follows the whitespace after it; any other text,
    judged by its first byte. *)
Definition flags_of_text (text : list byte) : bool * bool :=
  match text with
  | [] => (false, true)
  | b :: _ =>
      match strip_prefix (bytes_of "null") text with
      | Some rest =>
          match trim_leading_whitespace rest with
          | [] => (false, false)
          | c :: _ => (u8 c =? chr "{", false)
          end
      | None => (u8 b =? chr "{", false)
      end
  end.

(** A document cut at every delimiter byte. *)
Fixpoint split_on (delimiter : byte) (document : list byte) : list (list byte) :=
  match document with
  | [] => [[]]
  | b :: rest =>
      if Byte.eqb b delimiter then [] :: split_on delimiter rest
      else match split_on delimiter rest with
           | piece :: pieces => (b :: piece) :: pieces
           | [] => [[b]]
           end
  end.

(** The samples handed to [HistogramEven]: the chars buffer, read as [char]. *)
Definition samples_of (input : cudf.column) : list Z :=
  map (fun b => to_char (u8 b)) (cudf.chars input).

(** ** Columns for the worked examples *)

Definition strings_column (rows : list (list byte)) (null_mask : option cudf.bitmask)
  : cudf.column :=
  cudf.Column cudf.STRING (Z.of_nat (length rows)) (cudf.string_data rows) null_mask [].

Definition bools_column (d : list bool) : cudf.column :=
  cudf.Column cudf.BOOL8 (Z.of_nat (length d)) (cudf.bool_data d) None [].

(** Two parsed children of three rows, a null flag per row, and a child that
    is one row short. *)
Definition example_children : list cudf.column :=
  [strings_column [bytes_of "1"; bytes_of ""; bytes_of "2"] None;
   strings_column [bytes_of "x"; bytes_of "y"; bytes_of "z"] (Some [5])].
Definition example_is_null : cudf.column := bools_column [false; true; false].
Definition short_child : cudf.column := strings_column [bytes_of "1"; bytes_of "2"] None.

(** The rows of the end-to-end scenario: an object, a null row, the literal
    [null], blanks, text that is no object, and a second object. *)
Definition json_object (value : string) : list byte :=
  bytes_of "{" ++ [x22; x61; x22] ++ bytes_of ":" ++ bytes_of value ++ bytes_of "}".
Definition example_rows : cudf.column :=
  strings_column [json_object "1"; []; bytes_of "null"; bytes_of "  ";
                  bytes_of "not json"; json_object "2"] (Some [61]).

(** One row holding the bytes 0 to 9, and one holding every byte from 0 to
    127. *)
Definition control_bytes_column : cudf.column :=
  strings_column [map byte_of_char (iota 10)] None.
Definition all_ascii_column : cudf.column :=
  strings_column [map byte_of_char (iota 128)] None.

(** Leaves for the quote stripper: a quoted word, a lone quote, a plain word,
    a null row, and a quoted word with a two-byte character in it. *)
Definition example_quoted : cudf.column :=
  strings_column [[x22; x61; x62; x63; x22]; [x22]; bytes_of "abc"; [x22; x61; x22];
                  [x22; xc3; xa9; x22]] (Some [23]).

(** A leaf that is not UTF-8: between a double quote and a double quote
    followed by a letter, two continuation bytes that no lead byte
    announces. *)
Definition example_stray_bytes : cudf.column :=
  strings_column [[x22; x80; x80; x22; x41]] None.

(** Leaf strings as the bulk reader hands them over; row 3 is null. *)
Definition example_leaves : cudf.column :=
  strings_column [bytes_of "true"; bytes_of "false"; bytes_of "TRUE"; bytes_of "true";
                  bytes_of " true"; bytes_of "1"; bytes_of ""] (Some [119]).

(** Rows that begin with [null] and go on, and a row with leading blanks. *)
Definition example_null_prefixed : cudf.column :=
  strings_column [bytes_of "null {"; bytes_of "nullx"; bytes_of "  {}"] None.

(** * Properties *)

(** ** Counting ranges *)

Lemma length_iota (n : Z) : length (iota n) = Z.to_nat n.
Proof. unfold iota. now rewrite length_map, length_seq. Qed.

Lemma in_iota (n i : Z) : In i (iota n) <-> 0 <= i < n.
Proof.
  unfold iota. rewrite in_map_iff. split.
  - intros (k & <- & Hk). apply in_seq in Hk. lia.
  - intros Hi. exists (Z.to_nat i). split; [lia|]. apply in_seq. lia.
Qed.

Lemma nth_iota (n i d : Z) : 0 <= i < n -> nth (Z.to_nat i) (iota n) d = i.
Proof.
  intros Hi. unfold iota.
  rewrite nth_indep with (d' := Z.of_nat 0) by (rewrite length_map, length_seq; lia).
  rewrite map_nth, seq_nth by lia. lia.
Qed.

Lemma nth_map_iota {A : Type} (f : Z -> A) (n i : Z) (d : A) :
  0 <= i < n -> nth (Z.to_nat i) (map f (iota n)) d = f i.
Proof.
  intros Hi.
  rewrite nth_indep with (d' := f 0) by (rewrite length_map, length_iota; lia).
  now rewrite map_nth, nth_iota.
Qed.

Lemma nth_error_map_iota {A : Type} (f : Z -> A) (n i : Z) :
  0 <= i < n -> nth_error (map f (iota n)) (Z.to_nat i) = Some (f i).
Proof.
  intros Hi. rewrite nth_error_nth' with (d := f 0) by (rewrite length_map, length_iota; lia).
  now rewrite nth_map_iota.
Qed.

Lemma count_if_map {A B : Type} (f : A -> B) (p : B -> bool) (l : list A) :
  count_if p (map f l) = count_if (fun a => p (f a)) l.
Proof.
  unfold count_if. f_equal.
  induction l as [|a l IH]; simpl; [reflexivity|].
  destruct (p (f a)); simpl; now rewrite IH.
Qed.

Lemma count_if_bounds {A : Type} (p : A -> bool) (l : list A) :
  0 <= count_if p l <= Z.of_nat (length l).
Proof. unfold count_if. pose proof (filter_length_le p l). lia. Qed.

(** ** Validity bitmasks *)

Lemma testbit_ballot_fold (f : Z -> bool) (lanes : list Z) (acc j : Z) :
  (forall l, In l lanes -> 0 <= l) ->
  Z.testbit (fold_left (fun acc lane => if f lane then Z.lor acc (Z.shiftl 1 lane) else acc)
                       lanes acc) j
  = Z.testbit acc j || existsb (fun l => (l =? j) && f l) lanes.
Proof.
  revert acc. induction lanes as [|l lanes IH]; intros acc Hpos; simpl.
  - now rewrite orb_false_r.
  - rewrite IH by (intros; apply Hpos; now right).
    assert (0 <= l) by (apply Hpos; now left).
    destruct (f l).
    + rewrite Z.lor_spec, Z.shiftl_1_l, Z.pow2_bits_eqb by assumption.
      rewrite andb_true_r. now rewrite orb_assoc.
    + now rewrite andb_false_r.
Qed.

Lemma testbit_ballot (f : Z -> bool) (j : Z) :
  0 <= j < 32 -> Z.testbit (cudf.ballot f) j = f j.
Proof.
  intros Hj. unfold cudf.ballot.
  rewrite testbit_ballot_fold by (intros l Hl; apply in_iota in Hl; lia).
  rewrite Z.bits_0, orb_false_l.
  destruct (f j) eqn:Hf.
  - apply existsb_exists. exists j. split; [apply in_iota; lia|].
    now rewrite Z.eqb_refl, Hf.
  - destruct (existsb _ _) eqn:He; [|reflexivity].
    apply existsb_exists in He. destruct He as (l & _ & Hl).
    apply andb_true_iff in Hl. destruct Hl as [Hl1 Hl2].
    apply Z.eqb_eq in Hl1. subst l. congruence.
Qed.

Lemma bit_is_set_valid_if {A : Type} (range : list A) (p : A -> bool) (i : Z) (d : A) :
  0 <= i < Z.of_nat (length range) ->
  cudf.bit_is_set (fst (cudf.valid_if range p)) i = p (nth (Z.to_nat i) range d).
Proof.
  intros Hi. unfold cudf.valid_if, cudf.bit_is_set, cudf.word_index, cudf.intra_word_index.
  cbn [fst].
  assert (Hw : 0 <= i / 32 < cudf.num_bitmask_words (Z.of_nat (length range))).
  { unfold cudf.num_bitmask_words. split; [apply Z.div_pos; lia|].
    apply Z.div_lt_upper_bound; [lia|].
    pose proof (Z.mul_div_le i 32). pose proof (Z.mod_pos_bound (Z.of_nat (length range) + 31) 32).
    pose proof (Z.div_mod (Z.of_nat (length range) + 31) 32). lia. }
  rewrite nth_map_iota by exact Hw.
  rewrite testbit_ballot by (apply Z.mod_pos_bound; lia).
  replace (32 * (i / 32) + i mod 32) with i by (pose proof (Z.div_mod i 32); lia).
  assert (Hlt : (i <? Z.of_nat (length range)) = true) by (apply Z.ltb_lt; lia).
  rewrite Hlt. simpl.
  rewrite nth_error_nth' with (d := d) by lia. reflexivity.
Qed.

Lemma filter_length_partition {A : Type} (p : A -> bool) (l : list A) :
  (length (filter p l) + length (filter (fun a => negb (p a)) l) = length l)%nat.
Proof.
  induction l as [|a l IH]; simpl; [reflexivity|].
  destruct (p a); simpl; lia.
Qed.

Lemma null_count_valid_if {A : Type} (range : list A) (p : A -> bool) :
  snd (cudf.valid_if range p) = count_if (fun a => negb (p a)) range.
Proof.
  unfold cudf.valid_if, count_if. cbn [snd].
  pose proof (filter_length_partition p range). lia.
Qed.

(** The mask of a range that is not empty has a word, so that its buffer is
    not the null pointer. *)
Lemma mask_data_valid_if {A : Type} (range : list A) (p : A -> bool) :
  0 < Z.of_nat (length range) ->
  cudf.mask_data (fst (cudf.valid_if range p)) = Some (fst (cudf.valid_if range p)).
Proof.
  intros Hlen. unfold cudf.valid_if. cbn [fst].
  set (words := cudf.num_bitmask_words (Z.of_nat (length range))).
  assert (Hw : 0 < words).
  { unfold words, cudf.num_bitmask_words.
    apply Z.div_str_pos. lia. }
  unfold iota. destruct (Z.to_nat words) as [|k] eqn:Hk; [lia|]. reflexivity.
Qed.

(** ** [make_structs] *)

Lemma check_row_counts_ok (children : list cudf.column) (row_count : Z) :
  (forall c, In c children -> cudf.size c = row_count) ->
  detail.check_row_counts children row_count = Ok tt.
Proof.
  induction children as [|c children IH]; intros Hall; simpl; [reflexivity|].
  rewrite (Hall c) by now left. rewrite Z.eqb_refl. simpl.
  apply IH. intros c' Hc'. apply Hall. now right.
Qed.

Lemma check_row_counts_throw (children : list cudf.column) (row_count : Z) (c : cudf.column) :
  In c children -> cudf.size c <> row_count ->
  detail.check_row_counts children row_count
  = Throw (cudf_logic_error "All columns must have the same number of rows.").
Proof.
  induction children as [|c' children IH]; intros Hin Hne; simpl; [contradiction|].
  unfold CUDF_EXPECTS.
  destruct (cudf.size c' =? row_count) eqn:Heq; simpl; [|reflexivity].
  destruct Hin as [->|Hin]; [apply Z.eqb_eq in Heq; contradiction|].
  now apply IH.
Qed.

(** C5.  Given a non-empty list of children that all have [row_count] rows and
    an is-null column of [row_count] rows, [make_structs] returns a STRUCT
    column of [row_count] rows over the very same children, in which row [i]
    is valid exactly when [is_null[i]] is false. *)
Theorem make_structs_validity (children : list cudf.column) (is_null : cudf.column)
        (row_count : Z) :
  children <> [] ->
  (forall c, In c children -> cudf.size c = row_count) ->
  cudf.size is_null = row_count ->
  exists structs,
    make_structs children is_null = Ok (Some structs)
    /\ cudf.type structs = cudf.STRUCT
    /\ cudf.size structs = row_count
    /\ cudf.children structs = children
    /\ forall i, 0 <= i < row_count ->
                 cudf.is_valid structs i = negb (cudf.element_bool is_null i).
Proof.
  intros Hne Hsizes Hnull.
  destruct children as [|front rest]; [congruence|].
  unfold make_structs, detail.make_structs.
  assert (Hfront : cudf.size front = row_count) by (apply Hsizes; now left).
  rewrite Hfront, (check_row_counts_ok _ _ Hsizes). cbn [bind].
  destruct (cudf.valid_if (cudf.bool_range is_null) negb) as [null_mask null_count] eqn:Hv.
  eexists. split; [reflexivity|]. cbn [cudf.type cudf.size cudf.children].
  repeat split.
  intros i Hi. unfold cudf.is_valid. cbn [cudf.null_mask].
  replace null_mask with (fst (cudf.valid_if (cudf.bool_range is_null) negb)) by now rewrite Hv.
  assert (Hlen : Z.of_nat (length (cudf.bool_range is_null)) = row_count).
  { unfold cudf.bool_range. rewrite length_map, length_iota. lia. }
  rewrite mask_data_valid_if by lia.
  rewrite bit_is_set_valid_if with (d := false) by lia.
  unfold cudf.bool_range. rewrite nth_map_iota by lia. reflexivity.
Qed.

Lemma make_structs_validity_witness :
  exists structs,
    make_structs example_children example_is_null = Ok (Some structs)
    /\ cudf.type structs = cudf.STRUCT
    /\ cudf.size structs = 3
    /\ cudf.children structs = example_children
    /\ forall i, 0 <= i < 3 ->
                 cudf.is_valid structs i = negb (cudf.element_bool example_is_null i).
Proof.
  apply (make_structs_validity example_children example_is_null 3).
  - discriminate.
  - intros c [<-|[<-|[]]]; reflexivity.
  - reflexivity.
Defined.

(** C8.  When two of the children differ in their number of rows,
    [make_structs] throws the [cudf::logic_error] of its row-count check. *)
Theorem make_structs_row_count_mismatch (children : list cudf.column) (is_null c1 c2 : cudf.column) :
  In c1 children -> In c2 children -> cudf.size c1 <> cudf.size c2 ->
  make_structs children is_null
  = Throw (cudf_logic_error "All columns must have the same number of rows.").
Proof.
  intros H1 H2 Hne.
  unfold make_structs, detail.make_structs.
  destruct children as [|front rest]; [contradiction|].
  destruct (Z.eq_dec (cudf.size c1) (cudf.size front)) as [Heq|Hneq].
  - rewrite (check_row_counts_throw _ _ c2 H2) by congruence. reflexivity.
  - rewrite (check_row_counts_throw _ _ c1 H1 Hneq). reflexivity.
Qed.

Lemma make_structs_row_count_mismatch_witness :
  make_structs (example_children ++ [short_child]) example_is_null
  = Throw (cudf_logic_error "All columns must have the same number of rows.").
Proof.
  apply (make_structs_row_count_mismatch _ example_is_null
           (strings_column [bytes_of "1"; bytes_of ""; bytes_of "2"] None) short_child).
  - simpl. now left.
  - simpl. right. right. now left.
  - vm_compute. discriminate.
Defined.

(** C10.  With no child column at all, [make_structs] returns the null
    pointer and throws nothing, whatever the is-null column is. *)
Theorem make_structs_no_children (is_null : cudf.column) :
  make_structs [] is_null = Ok None.
Proof. reflexivity. Qed.

(** ** Bytes *)

Lemma u8_range (b : byte) : 0 <= u8 b < 256.
Proof. destruct b; vm_compute; split; congruence. Qed.

Lemma u8_inj (a b : byte) : u8 a = u8 b -> a = b.
Proof.
  unfold u8. intros H. apply N2Z.inj in H.
  apply (f_equal Byte.of_N) in H. rewrite !Byte.of_to_N in H. congruence.
Qed.

Lemma width_ascii (b : byte) : u8 b < 128 -> cudf.bytes_in_utf8_byte (u8 b) = 1.
Proof. destruct b; vm_compute; intros H; try reflexivity; discriminate H. Qed.

Lemma width_continuation (b : byte) :
  cudf.bytes_in_utf8_byte (u8 b) = 0 <-> 128 <= u8 b < 192.
Proof.
  destruct b; vm_compute; (split; [intros H; try discriminate H; split; congruence
                                  | intros [H1 H2]; try reflexivity;
                                    first [exfalso; apply H1; reflexivity | discriminate H2]]).
Qed.

Lemma width_lead (b : byte) :
  192 <= u8 b ->
  cudf.bytes_in_utf8_byte (u8 b) = 2 \/ cudf.bytes_in_utf8_byte (u8 b) = 3
  \/ cudf.bytes_in_utf8_byte (u8 b) = 4.
Proof.
  destruct b; vm_compute; intros H;
    first [exfalso; apply H; reflexivity | now left | now (right; left) | now (right; right)].
Qed.

Lemma width_single (b : byte) : u8 b < 192 -> cudf.bytes_in_utf8_byte (u8 b) <= 1.
Proof. destruct b; vm_compute; intros H; try discriminate; discriminate H. Qed.

Lemma is_begin_width (b : byte) :
  cudf.is_begin_utf8_char (u8 b) = negb (cudf.bytes_in_utf8_byte (u8 b) =? 0).
Proof. destruct b; reflexivity. Qed.

(** ** [cudf::string_view] *)

Lemma lor_shiftl_8 (x y : Z) :
  0 <= x -> 0 <= y < 256 -> Z.lor (Z.shiftl x 8) y = x * 256 + y.
Proof.
  intros Hx Hy. rewrite Z.shiftl_mul_pow2 by lia. change (2 ^ 8) with 256.
  rewrite <- Z.add_lor_land.
  assert (Hland : Z.land (x * 256) y = 0).
  { apply Z.bits_inj'. intros n Hn. rewrite Z.land_spec, Z.bits_0.
    destruct (Z.lt_ge_cases n 8) as [Hlt|Hge].
    - change 256 with (2 ^ 8). now rewrite Z.mul_pow2_bits_low.
    - rewrite <- (Z.mod_small y (2 ^ 8)) by (change (2 ^ 8) with 256; lia).
      rewrite Z.mod_pow2_bits_high by lia. apply andb_false_r. }
  rewrite Hland. lia.
Qed.

Lemma to_char_low (x y : Z) : to_char (x * 256 + y) = to_char y.
Proof.
  unfold to_char. f_equal.
  replace (x * 256 + y + 128) with (y + 128 + x * 256) by lia.
  apply Z_mod_plus_full.
Qed.

Lemma to_char_utf8_single (b : byte) (t : list byte) :
  u8 b < 192 -> cudf.to_char_utf8 (b :: t) = u8 b.
Proof.
  intros Hb. unfold cudf.to_char_utf8. cbn [nth].
  pose proof (width_single b Hb) as Hw.
  destruct (1 <? cudf.bytes_in_utf8_byte (u8 b)) eqn:H1; [|reflexivity].
  apply Z.ltb_lt in H1. lia.
Qed.

Lemma to_char_utf8_lead (b : byte) (t : list byte) :
  192 <= u8 b -> 256 <= cudf.to_char_utf8 (b :: t).
Proof.
  intros Hb. unfold cudf.to_char_utf8. cbn [nth].
  assert (H1 : (1 <? cudf.bytes_in_utf8_byte (u8 b)) = true).
  { apply Z.ltb_lt. destruct (width_lead b Hb) as [H|[H|H]]; lia. }
  rewrite H1.
  pose proof (u8_range b).
  pose proof (u8_range (nth 1 (b :: t) x00)) as R1.
  pose proof (u8_range (nth 2 (b :: t) x00)) as R2.
  pose proof (u8_range (nth 3 (b :: t) x00)) as R3.
  cbn [nth] in R1, R2, R3.
  rewrite (lor_shiftl_8 (u8 b)) by lia.
  rewrite (lor_shiftl_8 (u8 b * 256 + _)) by lia.
  rewrite (lor_shiftl_8 ((u8 b * 256 + _) * 256 + _)) by lia.
  repeat match goal with
         | |- context [if ?c then _ else _] => destruct c
         end; lia.
Qed.

Lemma to_char_utf8_eq_ascii (b : byte) (t : list byte) (c : Z) :
  0 <= c < 128 -> cudf.to_char_utf8 (b :: t) = c <-> u8 b = c.
Proof.
  intros Hc. destruct (Z.lt_ge_cases (u8 b) 192) as [Hlt|Hge].
  - now rewrite to_char_utf8_single.
  - pose proof (to_char_utf8_lead b t Hge). lia.
Qed.

Lemma characters_in_string_ascii (s : list byte) :
  Forall is_ascii s -> cudf.characters_in_string s = cudf.size_bytes s.
Proof.
  unfold cudf.characters_in_string, cudf.size_bytes, count_if. intros Hs. f_equal.
  induction Hs as [|b s Hb Hs IH]; simpl; [reflexivity|].
  rewrite is_begin_width, (width_ascii b Hb). simpl. now rewrite IH.
Qed.

Lemma bytes_to_character_position_ascii (pre rest : list byte) (bytes : Z) :
  Forall is_ascii pre ->
  cudf.bytes_to_character_position (pre ++ rest) (Z.of_nat (length pre)) bytes
  = (bytes + Z.of_nat (length pre), 0).
Proof.
  intros Hpre. revert bytes.
  induction Hpre as [|b pre Hb Hpre IH]; intros bytes.
  - simpl. destruct rest; simpl; f_equal; lia.
  - cbn [app length cudf.bytes_to_character_position].
    replace (0 <? Z.of_nat (S (length pre))) with true by (symmetry; apply Z.ltb_lt; lia).
    rewrite (width_ascii b Hb). cbn [Z.eqb].
    replace (Z.of_nat (S (length pre)) - 1) with (Z.of_nat (length pre)) by lia.
    rewrite IH. f_equal. lia.
Qed.

Lemma byte_offset_ascii (pre rest : list byte) :
  Forall is_ascii pre ->
  cudf.byte_offset (pre ++ rest) (Z.of_nat (length pre)) = Z.of_nat (length pre).
Proof.
  intros Hpre. unfold cudf.byte_offset.
  destruct (_ =? _); [reflexivity|].
  now rewrite bytes_to_character_position_ascii.
Qed.

(** After a run of single-byte characters, character positions and byte
    offsets agree: [d_str[i]] is the character that starts at byte [i]. *)
Lemma char_at_after_ascii (pre rest : list byte) :
  Forall is_ascii pre ->
  cudf.char_at (pre ++ rest) (Z.of_nat (length pre))
  = match rest with
    | [] => 0
    | _ :: _ => cudf.to_char_utf8 rest
    end.
Proof.
  intros Hpre. unfold cudf.char_at. rewrite byte_offset_ascii by assumption.
  unfold cudf.size_bytes. rewrite length_app, Nat2Z.id, skipn_app, Nat.sub_diag.
  rewrite skipn_all. cbn [app skipn].
  destruct rest as [|b rest].
  - replace (_ <=? _) with true by (symmetry; apply Z.leb_le; simpl; lia). reflexivity.
  - replace (_ <=? _) with false by (symmetry; apply Z.leb_gt; simpl; lia). reflexivity.
Qed.

Lemma char_at_eq_ascii (pre rest : list byte) (c : Z) :
  Forall is_ascii pre -> 0 < c < 128 ->
  cudf.char_at (pre ++ rest) (Z.of_nat (length pre)) = c
  <-> exists b rest', rest = b :: rest' /\ u8 b = c.
Proof.
  intros Hpre Hc. rewrite char_at_after_ascii by assumption.
  destruct rest as [|b rest].
  - split; [lia|]. intros (b & rest' & H & _). discriminate H.
  - rewrite to_char_utf8_eq_ascii by lia. split.
    + intros H. now exists b, rest.
    + intros (b' & rest' & H & Hb). now inversion H; subst.
Qed.

Lemma matches_at_literal (lit pre rest : list byte) :
  Forall is_ascii pre -> Forall (fun l => 0 < u8 l < 128) lit ->
  matches_at (pre ++ rest) (Z.of_nat (length pre)) lit = true
  <-> exists rest', rest = lit ++ rest'.
Proof.
  intros Hpre Hlit. revert pre rest Hpre.
  induction Hlit as [|l lit Hl Hlit IH]; intros pre rest Hpre.
  - simpl. split; [intros _; now exists rest | reflexivity].
  - cbn [matches_at]. rewrite andb_true_iff, Z.eqb_eq.
    rewrite char_at_eq_ascii by assumption.
    split.
    + intros [(b & rest0 & -> & Hb) Hm].
      apply u8_inj in Hb. subst b.
      replace (pre ++ l :: rest0) with ((pre ++ [l]) ++ rest0) in Hm
        by now rewrite <- app_assoc.
      replace (Z.of_nat (length pre) + 1) with (Z.of_nat (length (pre ++ [l]))) in Hm
        by (rewrite length_app; simpl; lia).
      apply IH in Hm.
      * destruct Hm as (rest' & ->). now exists rest'.
      * apply Forall_app. split; [assumption|]. constructor; [|constructor].
        unfold is_ascii. lia.
    + intros (rest' & ->). split.
      * now exists l, (lit ++ rest').
      * replace (pre ++ (l :: lit) ++ rest') with ((pre ++ [l]) ++ lit ++ rest')
          by now rewrite <- app_assoc.
        replace (Z.of_nat (length pre) + 1) with (Z.of_nat (length (pre ++ [l])))
          by (rewrite length_app; simpl; lia).
        apply IH.
        -- apply Forall_app. split; [assumption|]. constructor; [|constructor].
           unfold is_ascii. lia.
        -- now exists rest'.
Qed.

(** ** [cast_strings_to_booleans] *)

Lemma count_if_zero {A : Type} (p : A -> bool) (l : list A) (a : A) :
  count_if p l = 0 -> In a l -> p a = false.
Proof.
  unfold count_if. intros H Hin.
  destruct (p a) eqn:Hp; [|reflexivity].
  assert (Hf : In a (filter p l)) by (apply filter_In; auto).
  destruct (filter p l); [contradiction|simpl in H; lia].
Qed.

Lemma is_true_literal (d_str : list byte) :
  (cudf.size_bytes d_str =? 4) && (cudf.char_at d_str 0 =? chr "t")
  && (cudf.char_at d_str 1 =? chr "r") && (cudf.char_at d_str 2 =? chr "u")
  && (cudf.char_at d_str 3 =? chr "e") = true
  <-> d_str = bytes_of "true".
Proof.
  assert (E : (cudf.size_bytes d_str =? 4) && (cudf.char_at d_str 0 =? chr "t")
              && (cudf.char_at d_str 1 =? chr "r") && (cudf.char_at d_str 2 =? chr "u")
              && (cudf.char_at d_str 3 =? chr "e")
              = (cudf.size_bytes d_str =? 4) && matches_at d_str 0 (bytes_of "true")).
  { change (bytes_of "true") with [x74; x72; x75; x65].
    cbn [matches_at]. rewrite andb_true_r, !andb_assoc. reflexivity. }
  rewrite E, andb_true_iff, Z.eqb_eq.
  rewrite (matches_at_literal (bytes_of "true") [] d_str);
    [|constructor|repeat constructor].
  split.
  - intros [Hsize (rest & ->)]. unfold cudf.size_bytes in Hsize.
    rewrite length_app in Hsize. simpl in Hsize.
    destruct rest; [apply app_nil_r|simpl in Hsize; lia].
  - intros ->. split; [reflexivity|]. now exists [].
Qed.

Lemma is_false_literal (d_str : list byte) :
  (cudf.size_bytes d_str =? 5) && (cudf.char_at d_str 0 =? chr "f")
  && (cudf.char_at d_str 1 =? chr "a") && (cudf.char_at d_str 2 =? chr "l")
  && (cudf.char_at d_str 3 =? chr "s") && (cudf.char_at d_str 4 =? chr "e") = true
  <-> d_str = bytes_of "false".
Proof.
  assert (E : (cudf.size_bytes d_str =? 5) && (cudf.char_at d_str 0 =? chr "f")
              && (cudf.char_at d_str 1 =? chr "a") && (cudf.char_at d_str 2 =? chr "l")
              && (cudf.char_at d_str 3 =? chr "s") && (cudf.char_at d_str 4 =? chr "e")
              = (cudf.size_bytes d_str =? 5) && matches_at d_str 0 (bytes_of "false")).
  { change (bytes_of "false") with [x66; x61; x6c; x73; x65].
    cbn [matches_at]. rewrite andb_true_r, !andb_assoc. reflexivity. }
  rewrite E, andb_true_iff, Z.eqb_eq.
  rewrite (matches_at_literal (bytes_of "false") [] d_str);
    [|constructor|repeat constructor].
  split.
  - intros [Hsize (rest & ->)]. unfold cudf.size_bytes in Hsize.
    rewrite length_app in Hsize. simpl in Hsize.
    destruct rest; [apply app_nil_r|simpl in Hsize; lia].
  - intros ->. split; [reflexivity|]. now exists [].
Qed.

(** The rows of the public result carry the value and the validity that the
    tabulated lambda computed: the mask is dropped only when every row is
    valid. *)
Lemma boolean_of_row_in_result (input : cudf.column) (idx : Z) :
  0 <= idx < cudf.size input ->
  cudf.element_bool (cast_strings_to_booleans input) idx
  = fst (detail.boolean_of_row input idx)
  /\ cudf.is_valid (cast_strings_to_booleans input) idx
     = snd (detail.boolean_of_row input idx).
Proof.
  intros Hidx. unfold cast_strings_to_booleans, detail.cast_strings_to_booleans,
    thrust.tabulate.
  set (rows := map (detail.boolean_of_row input) (iota (cudf.size input))).
  destruct (cudf.valid_if (map snd rows) (fun b => b)) as [null_mask null_count] eqn:Hv.
  assert (Hfst : cudf.element_bool
                   (cudf.Column cudf.BOOL8 (cudf.size input)
                                (cudf.bool_data (map fst rows)) None []) idx
                 = fst (detail.boolean_of_row input idx)).
  { unfold cudf.element_bool. cbn [cudf.data]. subst rows.
    rewrite map_map. now rewrite nth_map_iota. }
  assert (Hlen : Z.of_nat (length (map snd rows)) = cudf.size input).
  { subst rows. rewrite !length_map, length_iota. lia. }
  assert (Hnth : nth (Z.to_nat idx) (map snd rows) false
                 = snd (detail.boolean_of_row input idx)).
  { subst rows. rewrite map_map. now rewrite nth_map_iota. }
  destruct (0 <? null_count) eqn:Hnc.
  - split; [exact Hfst|].
    unfold cudf.is_valid. cbn [cudf.null_mask].
    replace null_mask with (fst (cudf.valid_if (map snd rows) (fun b => b)))
      by now rewrite Hv.
    rewrite bit_is_set_valid_if with (d := false) by lia. exact Hnth.
  - split; [exact Hfst|].
    unfold cudf.is_valid. cbn [cudf.null_mask].
    apply Z.ltb_ge in Hnc.
    assert (Hcount : null_count = count_if (fun b : bool => negb b) (map snd rows)).
    { rewrite <- null_count_valid_if. now rewrite Hv. }
    pose proof (count_if_bounds (fun b : bool => negb b) (map snd rows)) as Hb.
    assert (Hz : count_if (fun b : bool => negb b) (map snd rows) = 0) by lia.
    rewrite <- Hnth.
    apply (count_if_zero _ _ (nth (Z.to_nat idx) (map snd rows) false)) in Hz.
    + now destruct (nth (Z.to_nat idx) (map snd rows) false).
    + apply nth_In. lia.
Qed.

Lemma size_cast_strings_to_booleans (input : cudf.column) :
  cudf.size (cast_strings_to_booleans input) = cudf.size input.
Proof.
  unfold cast_strings_to_booleans, detail.cast_strings_to_booleans.
  destruct (cudf.valid_if _ _) as [m c]. now destruct (0 <? c).
Qed.

Lemma non_boolean_row_is_null (input : cudf.column) (idx : Z) :
  0 <= idx < cudf.size input ->
  cudf.is_null input idx = false ->
  cudf.element input idx <> bytes_of "true" ->
  cudf.element input idx <> bytes_of "false" ->
  cudf.is_valid (cast_strings_to_booleans input) idx = false.
Proof.
  intros Hidx Hnull Ht Hf.
  destruct (boolean_of_row_in_result input idx Hidx) as [_ ->].
  unfold detail.boolean_of_row. unfold cudf.is_null in Hnull.
  apply negb_false_iff in Hnull. rewrite Hnull.
  match goal with
  | |- context [if ?c then (true, true) else _] => destruct c eqn:Et
  end; [apply is_true_literal in Et; contradiction|].
  match goal with
  | |- context [if ?c then (false, true) else _] => destruct c eqn:Ef
  end; [apply is_false_literal in Ef; contradiction|].
  reflexivity.
Qed.

(** C6.  Row by row, [cast_strings_to_booleans] gives: null for a null row;
    valid [true] for the four bytes [true]; valid [false] for the five bytes
    [false]; null for any other content.  The comparison is by length and by
    byte. *)
Theorem cast_strings_to_booleans_rows (input : cudf.column) (idx : Z) :
  0 <= idx < cudf.size input ->
  let output := cast_strings_to_booleans input in
  cudf.size output = cudf.size input
  /\ (cudf.is_null input idx = true -> cudf.is_valid output idx = false)
  /\ (cudf.is_null input idx = false -> cudf.element input idx = bytes_of "true" ->
      cudf.is_valid output idx = true /\ cudf.element_bool output idx = true)
  /\ (cudf.is_null input idx = false -> cudf.element input idx = bytes_of "false" ->
      cudf.is_valid output idx = true /\ cudf.element_bool output idx = false)
  /\ (cudf.is_null input idx = false -> cudf.element input idx <> bytes_of "true" ->
      cudf.element input idx <> bytes_of "false" -> cudf.is_valid output idx = false).
Proof.
  intros Hidx output.
  destruct (boolean_of_row_in_result input idx Hidx) as [Hval Hvalid].
  fold output in Hval, Hvalid. rewrite Hval, Hvalid.
  split.
  { subst output. unfold cast_strings_to_booleans, detail.cast_strings_to_booleans.
    destruct (cudf.valid_if _ _) as [m c]. now destruct (0 <? c). }
  unfold detail.boolean_of_row, cudf.is_null.
  destruct (cudf.is_valid input idx); cbn [negb];
    [|repeat split; intros; try discriminate; reflexivity].
  match goal with
  | |- context [if ?c then (true, true) else _] => destruct c eqn:Ht
  end.
  { apply is_true_literal in Ht. rewrite Ht. cbn [fst snd].
    repeat split; intros; try discriminate; try contradiction; try reflexivity. }
  match goal with
  | |- context [if ?c then (false, true) else _] => destruct c eqn:Hf
  end.
  { apply is_false_literal in Hf. rewrite Hf. cbn [fst snd].
    repeat split; intros; try discriminate; try contradiction; try reflexivity. }
  cbn [fst snd].
  repeat split; intros; try discriminate; try reflexivity.
  - match goal with H : _ = bytes_of "true" |- _ => apply is_true_literal in H end.
    congruence.
  - match goal with H : _ = bytes_of "true" |- _ => apply is_true_literal in H end.
    congruence.
  - match goal with H : _ = bytes_of "false" |- _ => apply is_false_literal in H end.
    congruence.
Qed.

Lemma cast_strings_to_booleans_rows_witness :
  0 <= 0 < cudf.size example_leaves
  /\ cudf.is_valid (cast_strings_to_booleans example_leaves) 0 = true
  /\ cudf.element_bool (cast_strings_to_booleans example_leaves) 0 = true.
Proof.
  assert (H : 0 <= 0 < cudf.size example_leaves) by (simpl; lia).
  split; [exact H|].
  apply (cast_strings_to_booleans_rows example_leaves 0 H); reflexivity.
Defined.

(** ** The row classifier of [concat_json] *)

Lemma whitespace_is_ascii (b : byte) : is_whitespace b = true -> is_ascii b.
Proof. unfold is_ascii. destruct b; vm_compute; intros H; try reflexivity; discriminate H. Qed.

Lemma seen_char_of_byte (b : byte) :
  detail.not_whitespace (cudf.char_utf8_of_char (to_char (u8 b))) = negb (is_whitespace b)
  /\ (to_char (u8 b) =? chr "{") = (u8 b =? chr "{").
Proof. destruct b; split; reflexivity. Qed.

Lemma to_char_high (y : Z) : 128 <= y < 256 -> to_char y = y - 256.
Proof.
  intros Hy. unfold to_char.
  replace (y + 128) with (y - 128 + 1 * 256) by lia.
  rewrite Z_mod_plus_full, Z.mod_small by lia. lia.
Qed.

Lemma seen_char_multibyte (b : byte) (t : list byte) :
  192 <= u8 b -> utf8_ok 0 (b :: t) = true -> -128 <= seen_char (b :: t) < -64.
Proof.
  intros Hb Hok. unfold seen_char, cudf.to_char_utf8. cbn [nth].
  cbn [utf8_ok] in Hok. apply andb_true_iff in Hok. destruct Hok as [_ Hok].
  pose proof (u8_range b) as Rb.
  assert (Hcont : forall c r p, utf8_ok (S p) (c :: r) = true ->
                                128 <= u8 c < 192 /\ utf8_ok p r = true).
  { intros c r p H. cbn [utf8_ok] in H. apply andb_true_iff in H.
    destruct H as [H1 H2]. apply Z.eqb_eq, width_continuation in H1. auto. }
  destruct (width_lead b Hb) as [Hw|[Hw|Hw]]; rewrite Hw in *; cbn [Z.ltb Z.compare Pos.compare
    Pos.compare_cont] in *.
  - change (Z.to_nat (2 - 1)) with 1%nat in Hok.
    destruct t as [|c1 t1]; [discriminate Hok|].
    apply Hcont in Hok. destruct Hok as [R1 _]. cbn [nth].
    rewrite lor_shiftl_8, to_char_low, to_char_high by lia. lia.
  - change (Z.to_nat (3 - 1)) with 2%nat in Hok.
    destruct t as [|c1 t1]; [discriminate Hok|].
    apply Hcont in Hok. destruct Hok as [R1 Hok].
    destruct t1 as [|c2 t2]; [discriminate Hok|].
    apply Hcont in Hok. destruct Hok as [R2 _]. cbn [nth].
    rewrite (lor_shiftl_8 (u8 b)) by lia.
    rewrite lor_shiftl_8, to_char_low, to_char_high by lia. lia.
  - change (Z.to_nat (4 - 1)) with 3%nat in Hok.
    destruct t as [|c1 t1]; [discriminate Hok|].
    apply Hcont in Hok. destruct Hok as [R1 Hok].
    destruct t1 as [|c2 t2]; [discriminate Hok|].
    apply Hcont in Hok. destruct Hok as [R2 Hok].
    destruct t2 as [|c3 t3]; [discriminate Hok|].
    apply Hcont in Hok. destruct Hok as [R3 _]. cbn [nth].
    rewrite (lor_shiftl_8 (u8 b)) by lia.
    rewrite (lor_shiftl_8 (u8 b * 256 + _)) by lia.
    rewrite lor_shiftl_8, to_char_low, to_char_high by lia. lia.
Qed.

(** The first character that is not whitespace ends the scan, and it is read
    as [{] only when its first byte is [{]. *)
Lemma seen_char_head (b : byte) (t : list byte) :
  is_whitespace b = false ->
  u8 b < 192 \/ utf8_ok 0 (b :: t) = true ->
  detail.not_whitespace (cudf.char_utf8_of_char (seen_char (b :: t))) = true
  /\ (seen_char (b :: t) =? chr "{") = (u8 b =? chr "{").
Proof.
  intros Hws Hb.
  destruct (Z.lt_ge_cases (u8 b) 192) as [Hlt|Hge].
  - unfold seen_char. rewrite to_char_utf8_single by assumption.
    destruct (seen_char_of_byte b) as [-> ->]. now rewrite Hws.
  - destruct Hb as [Hb|Hok]; [lia|].
    pose proof (seen_char_multibyte b t Hge Hok) as Hch.
    split.
    + unfold detail.not_whitespace, cudf.char_utf8_of_char.
      rewrite <- (Z_mod_plus_full _ 1 (2 ^ 32)), Z.mod_small by lia.
      repeat (apply andb_true_iff; split); apply negb_true_iff, Z.eqb_neq;
        change (chr " ") with 32; change (chr "013") with 13;
        change (chr "010") with 10; change (chr "009") with 9; lia.
    + change (chr "{") with 123.
      replace (u8 b =? 123) with false by (symmetry; apply Z.eqb_neq; lia).
      apply Z.eqb_neq. lia.
Qed.

Lemma utf8_ok_after_ascii (pre rest : list byte) :
  Forall is_ascii pre -> utf8_ok 0 (pre ++ rest) = utf8_ok 0 rest.
Proof.
  intros Hpre. induction Hpre as [|b pre Hb Hpre IH]; [reflexivity|].
  cbn [app utf8_ok]. rewrite (width_ascii b Hb). exact IH.
Qed.

Lemma leading_trim (s : list byte) :
  s = leading_whitespace s ++ trim_leading_whitespace s.
Proof.
  induction s as [|b s IH]; [reflexivity|]. simpl.
  destruct (is_whitespace b); [simpl; now rewrite <- IH | reflexivity].
Qed.

Lemma leading_whitespace_all (s : list byte) :
  Forall (fun b => is_whitespace b = true) (leading_whitespace s).
Proof.
  induction s as [|b s IH]; simpl; [constructor|].
  destruct (is_whitespace b) eqn:Hb; [now constructor | constructor].
Qed.

Lemma trim_head (s : list byte) (b : byte) (t : list byte) :
  trim_leading_whitespace s = b :: t -> is_whitespace b = false.
Proof.
  induction s as [|a s IH]; simpl; [discriminate|].
  destruct (is_whitespace a) eqn:Ha; [exact IH|].
  intros H. inversion H; subst. exact Ha.
Qed.

Lemma whitespace_run_ascii (ws : list byte) :
  Forall (fun b => is_whitespace b = true) ws -> Forall is_ascii ws.
Proof. intros H. eapply Forall_impl; [|exact H]. apply whitespace_is_ascii. Qed.

(** The scanning loop over [pre ++ ws ++ rest], entered at the end of [pre]:
    it runs through the whitespace [ws], and then either reaches the end of
    the row or leaves by [break] on the first character of [rest]. *)
Lemma skip_whitespace_run (ws pre rest : list byte) (fuel : nat) (size ch : Z) :
  Forall is_ascii pre ->
  Forall (fun b => is_whitespace b = true) ws ->
  (length ws + length rest <= fuel)%nat ->
  size = cudf.size_bytes (pre ++ ws ++ rest) ->
  (rest <> [] -> detail.not_whitespace (cudf.char_utf8_of_char (seen_char rest)) = true) ->
  match rest with
  | [] => exists ch', detail.skip_whitespace fuel (pre ++ ws ++ rest) size
                                             (Z.of_nat (length pre)) ch
                      = (size, ch', false)
  | _ :: _ => detail.skip_whitespace fuel (pre ++ ws ++ rest) size (Z.of_nat (length pre)) ch
              = (Z.of_nat (length pre) + Z.of_nat (length ws), seen_char rest, true)
  end.
Proof.
  intros Hpre Hws. revert pre fuel ch Hpre.
  induction Hws as [|w ws Hw Hws IH]; intros pre fuel ch Hpre Hfuel Hsize Hstop.
  - cbn [app] in *. destruct rest as [|b t].
    + exists ch. rewrite app_nil_r in *. subst size. unfold cudf.size_bytes.
      destruct fuel; cbn [detail.skip_whitespace]; [reflexivity|].
      now rewrite Z.ltb_irrefl.
    + destruct fuel as [|fuel]; [simpl in Hfuel; lia|].
      cbn [detail.skip_whitespace].
      replace (Z.of_nat (length pre) <? size) with true
        by (symmetry; apply Z.ltb_lt; subst size; unfold cudf.size_bytes;
            rewrite length_app; simpl; lia).
      rewrite char_at_after_ascii by assumption.
      fold (seen_char (b :: t)). rewrite Hstop by discriminate.
      cbn [length]. f_equal. f_equal. lia.
  - destruct fuel as [|fuel]; [simpl in Hfuel; lia|].
    assert (Hstep : detail.skip_whitespace (S fuel) (pre ++ (w :: ws) ++ rest) size
                                           (Z.of_nat (length pre)) ch
                    = detail.skip_whitespace fuel ((pre ++ [w]) ++ ws ++ rest) size
                                             (Z.of_nat (length (pre ++ [w]))) (u8 w)).
    { cbn [detail.skip_whitespace].
      replace (Z.of_nat (length pre) <? size) with true
        by (symmetry; apply Z.ltb_lt; subst size; unfold cudf.size_bytes;
            rewrite length_app; simpl; lia).
      rewrite char_at_after_ascii by assumption. cbn [app].
      pose proof (whitespace_is_ascii w Hw) as Hascii. unfold is_ascii in Hascii.
      rewrite to_char_utf8_single by lia.
      destruct (seen_char_of_byte w) as [-> _]. rewrite Hw. cbn [negb].
      replace (to_char (u8 w)) with (u8 w)
        by (unfold to_char; pose proof (u8_range w); rewrite Z.mod_small by lia; lia).
      rewrite <- app_assoc. cbn [app].
      rewrite length_app. cbn [length]. f_equal. lia. }
    assert (Hpre' : Forall is_ascii (pre ++ [w])).
    { apply Forall_app. split; [assumption|]. constructor; [|constructor].
      now apply whitespace_is_ascii. }
    assert (Hsize' : size = cudf.size_bytes ((pre ++ [w]) ++ ws ++ rest)).
    { rewrite <- app_assoc. exact Hsize. }
    assert (Hfuel' : (length ws + length rest <= fuel)%nat) by (simpl in Hfuel; lia).
    specialize (IH (pre ++ [w]) fuel (u8 w) Hpre' Hfuel' Hsize' Hstop).
    destruct rest as [|b t].
    + destruct IH as (ch' & IH). exists ch'. rewrite Hstep. exact IH.
    + rewrite Hstep, IH. f_equal. f_equal. rewrite length_app. simpl. lia.
Qed.

(** The first scan of a row [s]: over its leading whitespace. *)
Lemma first_scan (s : list byte) (ch0 : Z) :
  (trim_leading_whitespace s <> [] ->
   detail.not_whitespace (cudf.char_utf8_of_char (seen_char (trim_leading_whitespace s)))
   = true) ->
  match trim_leading_whitespace s with
  | [] => exists ch', detail.skip_whitespace (Z.to_nat (cudf.size_bytes s)) s
                                             (cudf.size_bytes s) 0 ch0
                      = (cudf.size_bytes s, ch', false)
  | _ :: _ => detail.skip_whitespace (Z.to_nat (cudf.size_bytes s)) s (cudf.size_bytes s) 0 ch0
              = (Z.of_nat (length (leading_whitespace s)),
                 seen_char (trim_leading_whitespace s), true)
  end.
Proof.
  intros Hstop.
  pose proof (skip_whitespace_run (leading_whitespace s) [] (trim_leading_whitespace s)
                (Z.to_nat (cudf.size_bytes s)) (cudf.size_bytes s) ch0
                (Forall_nil _) (leading_whitespace_all s)) as H.
  cbn [app length] in H. rewrite <- leading_trim in H.
  change (Z.of_nat 0) with 0 in H.
  apply H; [|reflexivity|exact Hstop].
  unfold cudf.size_bytes. rewrite Nat2Z.id, <- length_app, <- leading_trim. lia.
Qed.

Lemma null_comparisons (d_str : list byte) (i : Z) :
  (cudf.char_at d_str i =? chr "n") && (cudf.char_at d_str (i + 1) =? chr "u")
  && (cudf.char_at d_str (i + 2) =? chr "l") && (cudf.char_at d_str (i + 3) =? chr "l")
  = matches_at d_str i (bytes_of "null").
Proof.
  change (bytes_of "null") with [x6e; x75; x6c; x6c]. cbn [matches_at].
  rewrite andb_true_r, !andb_assoc, <- !Z.add_assoc. reflexivity.
Qed.

Lemma null_prefix_iff (s : list byte) :
  matches_at s (Z.of_nat (length (leading_whitespace s))) (bytes_of "null") = true
  <-> exists rest, trim_leading_whitespace s = bytes_of "null" ++ rest.
Proof.
  rewrite (leading_trim s) at 1.
  apply matches_at_literal.
  - apply whitespace_run_ascii, leading_whitespace_all.
  - repeat constructor.
Qed.

(** A row that is empty or holds whitespace only. *)
Lemma classify_blank (ch0 : Z) (input : cudf.column) (idx : Z) :
  cudf.is_null input idx = false ->
  trim_leading_whitespace (cudf.element input idx) = [] ->
  detail.classify_row_from ch0 input idx = (false, true).
Proof.
  intros Hnull Htrim. unfold detail.classify_row_from. rewrite Hnull.
  set (s := cudf.element input idx) in *.
  pose proof (first_scan s ch0) as H. rewrite Htrim in H.
  destruct H as (ch' & ->); [congruence|].
  replace (cudf.size_bytes s + 3 <? cudf.size_bytes s) with false
    by (symmetry; apply Z.ltb_ge; lia).
  cbn [andb]. now rewrite Z.ltb_irrefl.
Qed.

(** A row whose text does not begin with [null]: it is a candidate exactly
    when its first byte that is not whitespace is [{]. *)
Lemma classify_plain (ch0 : Z) (input : cudf.column) (idx : Z) (b : byte) (t : list byte) :
  cudf.is_null input idx = false ->
  trim_leading_whitespace (cudf.element input idx) = b :: t ->
  u8 b < 192 \/ utf8_ok 0 (b :: t) = true ->
  (forall rest, b :: t <> bytes_of "null" ++ rest) ->
  detail.classify_row_from ch0 input idx = (u8 b =? chr "{", false).
Proof.
  intros Hnull Htrim Hb Hnot. unfold detail.classify_row_from. rewrite Hnull.
  set (s := cudf.element input idx) in *.
  pose proof (trim_head s b t Htrim) as Hws.
  destruct (seen_char_head b t Hws Hb) as [Hstop Hbrace].
  pose proof (first_scan s ch0) as H. rewrite Htrim in H. rewrite H by (intros _; exact Hstop).
  rewrite null_comparisons.
  assert (Hm : matches_at s (Z.of_nat (length (leading_whitespace s))) (bytes_of "null") = false).
  { destruct (matches_at _ _ _) eqn:Hm; [|reflexivity].
    apply null_prefix_iff in Hm. destruct Hm as (rest & Hm).
    rewrite Htrim in Hm. now apply Hnot in Hm. }
  rewrite Hm, andb_false_r.
  assert (Hlt : (Z.of_nat (length (leading_whitespace s)) <? cudf.size_bytes s) = true).
  { apply Z.ltb_lt. unfold cudf.size_bytes. rewrite (leading_trim s) at 2.
    rewrite length_app, Htrim. simpl. lia. }
  rewrite Hlt, Hbrace. cbn [andb negb]. now destruct (u8 b =? chr "{").
Qed.

(** A row whose text is [null] and then whitespace only. *)
Lemma classify_null_literal (ch0 : Z) (input : cudf.column) (idx : Z) (rest : list byte) :
  cudf.is_null input idx = false ->
  trim_leading_whitespace (cudf.element input idx) = bytes_of "null" ++ rest ->
  trim_leading_whitespace rest = [] ->
  detail.classify_row_from ch0 input idx = (false, false).
Proof.
  intros Hnull Htrim Hrest. unfold detail.classify_row_from. rewrite Hnull.
  set (s := cudf.element input idx) in *.
  set (ws := leading_whitespace s).
  assert (Hs : s = ws ++ bytes_of "null" ++ rest).
  { rewrite (leading_trim s). now rewrite Htrim. }
  assert (Hstop : detail.not_whitespace
                    (cudf.char_utf8_of_char (seen_char (trim_leading_whitespace s))) = true).
  { rewrite Htrim. reflexivity. }
  pose proof (first_scan s ch0) as H. rewrite Htrim in H.
  change (bytes_of "null" ++ rest) with (x6e :: (x75 :: x6c :: x6c :: rest)) in H.
  rewrite H by (intros _; rewrite Htrim in Hstop; exact Hstop).
  fold ws. rewrite null_comparisons.
  assert (Hm : matches_at s (Z.of_nat (length ws)) (bytes_of "null") = true).
  { apply null_prefix_iff. now exists rest. }
  assert (Hlen : length s = (length ws + 4 + length rest)%nat).
  { apply (f_equal (@length byte)) in Hs. rewrite Hs, !length_app. simpl. lia. }
  assert (Hlt : (Z.of_nat (length ws) + 3 <? cudf.size_bytes s) = true).
  { apply Z.ltb_lt. unfold cudf.size_bytes. lia. }
  rewrite Hm, Hlt. cbn [andb].
  pose proof (skip_whitespace_run (leading_whitespace rest) (ws ++ bytes_of "null")
                (trim_leading_whitespace rest)
                (Z.to_nat (cudf.size_bytes s - (Z.of_nat (length ws) + 4)))
                (cudf.size_bytes s)
                (seen_char (x6e :: x75 :: x6c :: x6c :: rest))) as H2.
  rewrite <- leading_trim, <- app_assoc, <- Hs in H2.
  replace (Z.of_nat (length (ws ++ bytes_of "null"))) with (Z.of_nat (length ws) + 4) in H2
    by (rewrite length_app; simpl; lia).
  rewrite Hrest in H2. destruct H2 as (ch' & ->); try reflexivity; try congruence.
  - apply Forall_app. split.
    + apply whitespace_run_ascii, leading_whitespace_all.
    + repeat constructor.
  - apply leading_whitespace_all.
  - unfold cudf.size_bytes.
    assert (length (leading_whitespace rest) = length rest).
    { rewrite (leading_trim rest) at 2. now rewrite Hrest, app_nil_r. }
    cbn [length]. lia.
Qed.

(** A row whose text begins with [null] and goes on after it: the character
    tested against [{] is the one that follows [null], not the first one. *)
Lemma classify_null_then_text (ch0 : Z) (input : cudf.column) (idx : Z)
      (rest : list byte) (c : byte) (v : list byte) :
  cudf.is_null input idx = false ->
  trim_leading_whitespace (cudf.element input idx) = bytes_of "null" ++ rest ->
  trim_leading_whitespace rest = c :: v ->
  u8 c < 192 \/ utf8_ok 0 (c :: v) = true ->
  detail.classify_row_from ch0 input idx = (u8 c =? chr "{", false).
Proof.
  intros Hnull Htrim Hrest Hc. unfold detail.classify_row_from. rewrite Hnull.
  set (s := cudf.element input idx) in *.
  set (ws := leading_whitespace s).
  assert (Hs : s = ws ++ bytes_of "null" ++ rest).
  { rewrite (leading_trim s). now rewrite Htrim. }
  pose proof (first_scan s ch0) as H. rewrite Htrim in H.
  change (bytes_of "null" ++ rest) with (x6e :: (x75 :: x6c :: x6c :: rest)) in H.
  rewrite H by reflexivity.
  fold ws. rewrite null_comparisons.
  assert (Hm : matches_at s (Z.of_nat (length ws)) (bytes_of "null") = true).
  { apply null_prefix_iff. now exists rest. }
  assert (Hlen : length s = (length ws + 4 + length rest)%nat).
  { apply (f_equal (@length byte)) in Hs. rewrite Hs, !length_app. simpl. lia. }
  assert (Hlt : (Z.of_nat (length ws) + 3 <? cudf.size_bytes s) = true).
  { apply Z.ltb_lt. unfold cudf.size_bytes. lia. }
  rewrite Hm, Hlt. cbn [andb].
  pose proof (trim_head rest c v Hrest) as Hws.
  destruct (seen_char_head c v Hws Hc) as [Hstop Hbrace].
  pose proof (skip_whitespace_run (leading_whitespace rest) (ws ++ bytes_of "null")
                (trim_leading_whitespace rest)
                (Z.to_nat (cudf.size_bytes s - (Z.of_nat (length ws) + 4)))
                (cudf.size_bytes s)
                (seen_char (x6e :: x75 :: x6c :: x6c :: rest))) as H2.
  rewrite <- leading_trim, <- app_assoc, <- Hs in H2.
  replace (Z.of_nat (length (ws ++ bytes_of "null"))) with (Z.of_nat (length ws) + 4) in H2
    by (rewrite length_app; simpl; lia).
  assert (Hrl : length rest = (length (leading_whitespace rest) + S (length v))%nat).
  { rewrite (leading_trim rest) at 1. now rewrite Hrest, length_app. }
  rewrite Hrest in H2. rewrite H2.
  - cbn [negb].
    replace (_ <? cudf.size_bytes s) with true
      by (symmetry; apply Z.ltb_lt; unfold cudf.size_bytes; lia).
    rewrite Hbrace. cbn [andb negb]. now destruct (u8 c =? chr "{").
  - apply Forall_app. split.
    + apply whitespace_run_ascii, leading_whitespace_all.
    + repeat constructor.
  - apply leading_whitespace_all.
  - unfold cudf.size_bytes. cbn [length]. lia.
  - reflexivity.
  - intros _. exact Hstop.
Qed.

(** [ch] is read only after a loop has assigned it: the flags of a row do
    not depend on what [ch] held at its declaration. *)
Lemma skip_whitespace_overwrites (fuel : nat) (d_str : list byte) (size i ch ch' : Z) :
  fuel <> 0%nat -> i < size ->
  detail.skip_whitespace fuel d_str size i ch = detail.skip_whitespace fuel d_str size i ch'.
Proof.
  intros Hfuel Hi. destruct fuel as [|fuel]; [contradiction|].
  cbn [detail.skip_whitespace].
  replace (i <? size) with true by (symmetry; apply Z.ltb_lt; exact Hi). reflexivity.
Qed.

Lemma classify_row_from_any (ch0 ch1 : Z) (input : cudf.column) (idx : Z) :
  detail.classify_row_from ch0 input idx = detail.classify_row_from ch1 input idx.
Proof.
  unfold detail.classify_row_from.
  destruct (cudf.is_null input idx); [reflexivity|].
  set (s := cudf.element input idx).
  destruct (Z.eq_dec (cudf.size_bytes s) 0) as [Hz|Hnz].
  - rewrite Hz. reflexivity.
  - assert (0 < cudf.size_bytes s) by (unfold cudf.size_bytes in *; lia).
    rewrite (skip_whitespace_overwrites _ s _ 0 ch0 ch1) by lia. reflexivity.
Qed.

(** ** The histogram and the choice of the delimiter *)

Lemma length_increment (h : list Z) (bin : nat) : length (cub.increment h bin) = length h.
Proof.
  revert bin. induction h as [|c h IH]; intros bin; [now destruct bin|].
  destruct bin; simpl; [reflexivity|]. now rewrite IH.
Qed.

Lemma nth_increment (h : list Z) (bin k : nat) :
  nth k (cub.increment h bin) 0
  = if (Nat.eqb k bin && Nat.ltb bin (length h))%bool
    then (nth k h 0 + 1) mod 2 ^ 32
    else nth k h 0.
Proof.
  revert bin k. induction h as [|c h IH]; intros bin k.
  - destruct bin, k; simpl; rewrite ?andb_false_r; reflexivity.
  - destruct bin as [|bin], k as [|k]; simpl; try reflexivity.
    rewrite IH. reflexivity.
Qed.

Lemma counted_cons (c x : Z) (samples : list Z) :
  counted c (x :: samples)
  = b2z ((CHAR_MIN <=? x) && (x <? CHAR_MAX) && (x =? c)) + counted c samples.
Proof.
  unfold counted, count_if. cbn [filter].
  destruct (_ && _ && _); cbn [length b2z]; lia.
Qed.

Lemma counted_char_max (samples : list Z) : counted CHAR_MAX samples = 0.
Proof.
  induction samples as [|x samples IH]; [reflexivity|].
  rewrite counted_cons, IH.
  destruct (x <? CHAR_MAX) eqn:Hlt; [|now rewrite andb_false_r].
  apply Z.ltb_lt in Hlt.
  replace (x =? CHAR_MAX) with false by (symmetry; apply Z.eqb_neq; lia).
  now rewrite andb_false_r.
Qed.

Lemma counted_bounds (c : Z) (samples : list Z) :
  0 <= counted c samples <= Z.of_nat (length samples).
Proof. apply count_if_bounds. Qed.

Lemma counted_in (c : Z) (samples : list Z) :
  In c samples -> CHAR_MIN <= c < CHAR_MAX -> 0 < counted c samples.
Proof.
  intros Hin Hc. unfold counted, count_if.
  assert (Hf : In c (filter (fun x => (CHAR_MIN <=? x) && (x <? CHAR_MAX) && (x =? c)) samples)).
  { apply filter_In. split; [assumption|].
    rewrite Z.eqb_refl, andb_true_r. apply andb_true_iff.
    split; [apply Z.leb_le | apply Z.ltb_lt]; lia. }
  destruct (filter _ samples); [contradiction|simpl; lia].
Qed.

(** Bin [idx] of the histogram counts the samples of value [idx - 128],
    modulo 2^32; the bin of [CHAR_MAX] thus always holds 0. *)
Lemma histogram_fold (samples h : list Z) (idx : Z) :
  0 <= idx < 256 -> length h = 256%nat ->
  0 <= nth (Z.to_nat idx) h 0 < 2 ^ 32 ->
  nth (Z.to_nat idx)
      (fold_left
         (fun histogram sample =>
            if (CHAR_MIN <=? sample) && (sample <? CHAR_MAX) then
              cub.increment histogram
                (Z.to_nat ((sample - CHAR_MIN) * (256 - 1) / (CHAR_MAX - CHAR_MIN)))
            else histogram) samples h) 0
  = (nth (Z.to_nat idx) h 0 + counted (idx - 128) samples) mod 2 ^ 32.
Proof.
  intros Hidx. revert h.
  induction samples as [|x samples IH]; intros h Hlen Hrange.
  - cbn [fold_left]. change (counted (idx - 128) []) with 0.
    rewrite Z.add_0_r, Z.mod_small by assumption. reflexivity.
  - cbn [fold_left]. rewrite counted_cons.
    destruct ((CHAR_MIN <=? x) && (x <? CHAR_MAX)) eqn:Hin.
    + apply andb_true_iff in Hin. destruct Hin as [Hlo Hhi].
      apply Z.leb_le in Hlo. apply Z.ltb_lt in Hhi. unfold CHAR_MIN, CHAR_MAX in *.
      replace ((x - -128) * (256 - 1) / (127 - -128)) with (x + 128)
        by (change (256 - 1) with 255; change (127 - -128) with 255;
            rewrite Z.div_mul by lia; lia).
      rewrite IH.
      * rewrite nth_increment, Hlen. cbn [andb].
        replace (Nat.ltb (Z.to_nat (x + 128)) 256) with true
          by (symmetry; apply Nat.ltb_lt; lia).
        rewrite andb_true_r.
        destruct (Nat.eqb (Z.to_nat idx) (Z.to_nat (x + 128))) eqn:He.
        -- apply Nat.eqb_eq in He.
           replace (x =? idx - 128) with true by (symmetry; apply Z.eqb_eq; lia).
           cbn [b2z]. rewrite Zplus_mod_idemp_l. f_equal. lia.
        -- apply Nat.eqb_neq in He.
           replace (x =? idx - 128) with false by (symmetry; apply Z.eqb_neq; lia).
           reflexivity.
      * now rewrite length_increment.
      * rewrite nth_increment.
        destruct (_ && _)%bool; [apply Z.mod_pos_bound; lia | assumption].
    + cbn [andb b2z]. rewrite IH by assumption. reflexivity.
Qed.

Lemma HistogramEven_counts (samples : list Z) (idx : Z) :
  0 <= idx < 256 ->
  nth (Z.to_nat idx)
      (cub.HistogramEven samples (repeat 0 (Z.to_nat 256)) 256 CHAR_MIN CHAR_MAX) 0
  = counted (idx - 128) samples mod 2 ^ 32.
Proof.
  intros Hidx. unfold cub.HistogramEven.
  replace (repeat 0 (Z.to_nat (256 - 1)) ++ skipn (Z.to_nat (256 - 1)) (repeat 0 (Z.to_nat 256)))
    with (repeat 0 256) by reflexivity.
  rewrite histogram_fold.
  - now rewrite nth_repeat.
  - assumption.
  - apply repeat_length.
  - rewrite nth_repeat. lia.
Qed.

Lemma find_if_from_spec (n : nat) (first : Z) (pred : Z -> bool) :
  let r := thrust.find_if_from n first pred in
  first <= r <= first + Z.of_nat n
  /\ (forall j, first <= j < r -> pred j = false)
  /\ (r < first + Z.of_nat n -> pred r = true).
Proof.
  revert first. induction n as [|n IH]; intros first; cbn [thrust.find_if_from].
  - cbn zeta. split; [lia|]. split; intros; lia.
  - destruct (pred first) eqn:Hp.
    + cbn zeta. split; [lia|]. split; [intros; lia|]. intros _. exact Hp.
    + specialize (IH (first + 1)). cbn zeta in IH. destruct IH as (Hr & Hbefore & Hat).
      cbn zeta. split; [lia|]. split.
      * intros j Hj. destruct (Z.eq_dec j first) as [->|Hne]; [exact Hp|].
        apply Hbefore. lia.
      * intros Hlt. apply Hat. lia.
Qed.

(** The search always ends on a byte in 0..127: the bin of [CHAR_MAX] is
    never counted into and [CHAR_MAX] may serve as a delimiter.  The byte found
    is the least one whose bin holds 0 and that may serve as a delimiter. *)
Lemma select_delimiter_returns (input : cudf.column) :
  exists delimiter,
    detail.select_delimiter input = Ok delimiter
    /\ 0 <= delimiter <= 127
    /\ detail.can_be_delimiter delimiter = true
    /\ counted delimiter (samples_of input) mod 2 ^ 32 = 0
    /\ forall c, 0 <= c < delimiter ->
                 0 < counted c (samples_of input) mod 2 ^ 32
                 \/ detail.can_be_delimiter c = false.
Proof.
  unfold detail.select_delimiter. fold (samples_of input).
  set (hist := cub.HistogramEven _ _ _ _ _).
  change (- CHAR_MIN) with 128. change (0 + 128) with 128. change (0 + 256) with 256.
  unfold thrust.find_if. change (Z.to_nat (256 - 128)) with 128%nat.
  pose proof (find_if_from_spec 128 128 (detail.is_free_delimiter 128 hist)) as H.
  cbn zeta in H. set (r := thrust.find_if_from _ _ _) in *.
  destruct H as (Hr & Hbefore & Hat).
  assert (Hbin : forall idx, 0 <= idx < 256 ->
                             nth (Z.to_nat idx) hist 0
                             = counted (idx - 128) (samples_of input) mod 2 ^ 32).
  { intros idx Hidx. apply HistogramEven_counts. exact Hidx. }
  assert (Hpred : forall idx, 128 <= idx < 256 ->
            detail.is_free_delimiter 128 hist idx
            = negb (0 <? counted (idx - 128) (samples_of input) mod 2 ^ 32)
              && detail.can_be_delimiter (idx - 128)).
  { intros idx Hidx. unfold detail.is_free_delimiter. rewrite Hbin by lia.
    replace (to_char (idx - 128)) with (idx - 128)
      by (unfold to_char; rewrite Z.mod_small by lia; lia).
    now destruct (0 <? _). }
  assert (Hlast : detail.is_free_delimiter 128 hist 255 = true).
  { rewrite Hpred by lia. change (255 - 128) with CHAR_MAX.
    rewrite counted_char_max. reflexivity. }
  assert (Hne : r <> 256).
  { intros Heq. rewrite Hbefore in Hlast by lia. discriminate Hlast. }
  replace (r =? 256) with false by (symmetry; apply Z.eqb_neq; exact Hne).
  assert (Hr' : 128 <= r < 256) by lia.
  exists (r - 128).
  replace (to_char (r - 128)) with (r - 128)
    by (unfold to_char; rewrite Z.mod_small by lia; lia).
  split; [reflexivity|]. split; [lia|].
  specialize (Hat ltac:(lia)). rewrite Hpred in Hat by lia.
  apply andb_true_iff in Hat. destruct Hat as [Hzero Hcan].
  split; [exact Hcan|]. split.
  - apply negb_true_iff, Z.ltb_ge in Hzero.
    pose proof (Z.mod_pos_bound (counted (r - 128) (samples_of input)) (2 ^ 32)). lia.
  - intros c Hc. specialize (Hbefore (c + 128) ltac:(lia)).
    rewrite Hpred in Hbefore by lia. replace (c + 128 - 128) with c in Hbefore by lia.
    apply andb_false_iff in Hbefore. destruct Hbefore as [Hb|Hb]; [left|now right].
    apply negb_false_iff, Z.ltb_lt in Hb. exact Hb.
Qed.

(** ** The document of [concat_json] *)

Lemma count_if_le {A : Type} (p q : A -> bool) (l : list A) :
  (forall x, In x l -> p x = true -> q x = true) -> count_if p l <= count_if q l.
Proof.
  unfold count_if. intros H. apply inj_le.
  induction l as [|a l IH]; simpl; [lia|].
  assert (IH' : (length (filter p l) <= length (filter q l))%nat).
  { apply IH. intros x Hx. apply H. now right. }
  pose proof (H a (or_introl eq_refl)) as Ha.
  destruct (p a), (q a); simpl; first [lia | discriminate (Ha eq_refl)].
Qed.

Lemma count_if_eq_pointwise {A : Type} (p q : A -> bool) (l : list A) :
  (forall x, In x l -> p x = true -> q x = true) ->
  count_if p l = count_if q l ->
  forall x, In x l -> p x = q x.
Proof.
  induction l as [|a l IH]; intros Himp Hcount x Hin; [contradiction|].
  assert (Himp' : forall x, In x l -> p x = true -> q x = true)
    by (intros y Hy; apply Himp; now right).
  pose proof (count_if_le p q l Himp') as Hle.
  pose proof (Himp a (or_introl eq_refl)) as Ha.
  unfold count_if in *. simpl in Hcount.
  destruct (p a) eqn:Hpa, (q a) eqn:Hqa; simpl in Hcount.
  - destruct Hin as [<-|Hin]; [congruence|]. apply IH; auto. lia.
  - discriminate (Ha eq_refl).
  - lia.
  - destruct Hin as [<-|Hin]; [congruence|]. apply IH; auto.
Qed.

Lemma classify_null_row (ch0 : Z) (input : cudf.column) (idx : Z) :
  cudf.is_null input idx = true -> detail.classify_row_from ch0 input idx = (false, true).
Proof. intros H. unfold detail.classify_row_from. now rewrite H. Qed.

Lemma join_with_seq (p : Z -> list byte) (d : byte) (len start : nat) :
  concat (map (fun k => p (Z.of_nat k)
                        ++ (if Z.of_nat k + 1 <? Z.of_nat (start + len) then [d] else []))
              (seq start len))
  = join_with d (map (fun k => p (Z.of_nat k)) (seq start len)).
Proof.
  revert start. induction len as [|len IH]; intros start; [reflexivity|].
  cbn [seq map concat].
  specialize (IH (S start)). replace (S start + len)%nat with (start + S len)%nat in IH by lia.
  rewrite IH. destruct len as [|len].
  - cbn [seq map join_with].
    replace (_ <? _) with false by (symmetry; apply Z.ltb_ge; lia).
    now rewrite !app_nil_r.
  - replace (_ <? _) with true by (symmetry; apply Z.ltb_lt; lia).
    cbn [seq map join_with]. now rewrite <- app_assoc.
Qed.

Lemma join_with_iota (p : Z -> list byte) (d : byte) (n : Z) :
  concat (map (fun idx => p idx ++ (if idx + 1 <? n then [d] else [])) (iota n))
  = join_with d (map p (iota n)).
Proof.
  unfold iota. rewrite !map_map.
  destruct (Z.lt_ge_cases n 0) as [Hn|Hn].
  - now replace (Z.to_nat n) with 0%nat by lia.
  - pose proof (join_with_seq p d (Z.to_nat n) 0) as H.
    replace (Z.of_nat (0 + Z.to_nat n)) with n in H by lia. exact H.
Qed.

(** [join_strings] with a valid [narep], read off its chars buffer. *)
Lemma chars_join_strings (input : cudf.column) (d : byte) (narep : list byte) :
  cudf.chars (cudf.join_strings input [d] (Some narep))
  = join_with d (map (fun idx => if cudf.is_null input idx then narep
                                 else cudf.element input idx)
                     (iota (cudf.size input))).
Proof.
  unfold cudf.join_strings.
  destruct (cudf.size input =? 0) eqn:Hz.
  - apply Z.eqb_eq in Hz. rewrite Hz. reflexivity.
  - rewrite andb_false_r. cbn [cudf.chars cudf.data concat]. rewrite app_nil_r.
    rewrite <- join_with_iota. f_equal. apply map_ext. intros idx.
    now destruct (cudf.is_null input idx).
Qed.

(** [concat_json] always returns: the flags are the second flag of every row,
    and the document joins the candidate rows as they are and [{}] for every
    other row. *)
Lemma concat_json_returns (input : cudf.column) :
  exists delimiter,
    detail.select_delimiter input = Ok delimiter
    /\ concat_json input
       = Ok (cudf.Column cudf.BOOL8 (cudf.size input)
                         (cudf.bool_data (map (is_null_or_empty input) (iota (cudf.size input))))
                         None [],
             join_with (byte_of_char delimiter) (map (payload input) (iota (cudf.size input))),
             delimiter).
Proof.
  destruct (select_delimiter_returns input) as (delimiter & Hd & _).
  exists delimiter. split; [exact Hd|].
  unfold concat_json, detail.concat_json. rewrite Hd. cbn [bind].
  set (output := map (detail.classify_row input) (iota (cudf.size input))).
  destruct (cudf.valid_if (map fst output) (fun b => b)) as [null_mask null_count] eqn:Hv.
  apply f_equal. apply f_equal2; [apply f_equal2|reflexivity].
  - do 2 f_equal. unfold output. rewrite map_map. reflexivity.
  - set (col := if null_count =? cudf.null_count input then input else _).
    assert (Hsize : cudf.size col = cudf.size input)
      by (unfold col; now destruct (null_count =? cudf.null_count input)).
    assert (Helem : forall idx, cudf.element col idx = cudf.element input idx)
      by (intros idx; unfold col; now destruct (null_count =? cudf.null_count input)).
    assert (Hlen : Z.of_nat (length (map fst output)) = Z.max 0 (cudf.size input)).
    { unfold output. rewrite !length_map, length_iota. lia. }
    assert (Hnth : forall idx, 0 <= idx < cudf.size input ->
                               nth (Z.to_nat idx) (map fst output) false
                               = is_candidate_object input idx).
    { intros idx Hidx. unfold output. rewrite map_map. now rewrite nth_map_iota. }
    assert (Hnull : forall idx, 0 <= idx < cudf.size input ->
                                cudf.is_null col idx = negb (is_candidate_object input idx)).
    { intros idx Hidx. unfold col.
      destruct (null_count =? cudf.null_count input) eqn:Heq.
      - apply Z.eqb_eq in Heq.
        assert (Hnc : null_count
                      = count_if (fun i => negb (is_candidate_object input i))
                                 (iota (cudf.size input))).
        { replace null_count with (snd (cudf.valid_if (map fst output) (fun b => b)))
            by now rewrite Hv.
          rewrite null_count_valid_if. unfold output.
          rewrite map_map, count_if_map. reflexivity. }
        apply (count_if_eq_pointwise (cudf.is_null input)
                 (fun i => negb (is_candidate_object input i)) (iota (cudf.size input))).
        + intros i _ Hi. unfold is_candidate_object, detail.classify_row.
          now rewrite classify_null_row.
        + unfold cudf.null_count in Heq. congruence.
        + apply in_iota. exact Hidx.
      - unfold cudf.is_null, cudf.is_valid. cbn [cudf.null_mask].
        replace null_mask with (fst (cudf.valid_if (map fst output) (fun b => b)))
          by now rewrite Hv.
        rewrite bit_is_set_valid_if with (d := false) by lia.
        now rewrite Hnth. }
    rewrite chars_join_strings, Hsize. f_equal.
    apply map_ext_in. intros idx Hidx. apply in_iota in Hidx.
    rewrite Hnull, Helem by exact Hidx. unfold payload.
    now destruct (is_candidate_object input idx).
Qed.

(** C1, as the specification states it, fails: for the scenario rows the
    document is not the brace-framed join of the candidate rows with empty
    payloads in between. *)
Lemma framed_document_refuted :
  match concat_json example_rows with
  | Ok (_, document, delimiter) =>
      document <> framed_document example_rows (byte_of_char delimiter)
  | Throw _ => False
  end.
Proof. vm_compute. discriminate. Qed.

(** C1, amended.  [concat_json] returns, and its document is the payloads of
    all rows joined by the delimiter byte, where the payload of a candidate
    row is its bytes and the payload of any other row is the two bytes [{}];
    nothing is put before or after. *)
Theorem concat_json_document (input : cudf.column) :
  exists flags delimiter,
    concat_json input
    = Ok (flags,
          join_with (byte_of_char delimiter) (map (payload input) (iota (cudf.size input))),
          delimiter).
Proof.
  destruct (concat_json_returns input) as (delimiter & _ & H).
  eexists. exists delimiter. exact H.
Qed.

(** C2, as the specification states it, fails: the row holding the literal
    [null] is not flagged null-or-empty. *)
Lemma null_literal_is_not_flagged :
  detail.classify_row example_rows 2 = (false, false)
  /\ specified_classification example_rows 2 = (false, true).
Proof. split; reflexivity. Qed.

Lemma classification_pair (input : cudf.column) (idx : Z) :
  (is_candidate_object input idx, is_null_or_empty input idx) = detail.classify_row input idx.
Proof. unfold is_candidate_object, is_null_or_empty. now destruct (detail.classify_row input idx). Qed.

(** C2, amended.  For every row, [concat_json] returns in its flag vector the
    second flag of the row, and the two flags (candidate, null-or-empty) are:
    (false, true) for a null row and for a row that is empty or whitespace
    only; (false, false) for a row that is the literal [null] with whitespace
    around it; (true, false) for a row whose first byte after the leading
    whitespace is an opening brace; (false, false) for every other row of
    well-formed UTF-8 whose text does not begin with [null]. *)
Theorem concat_json_classification (input : cudf.column) (idx : Z) :
  0 <= idx < cudf.size input ->
  exists flags document delimiter,
    concat_json input = Ok (flags, document, delimiter)
    /\ cudf.element_bool flags idx = is_null_or_empty input idx
    /\ let flags_of_row := (is_candidate_object input idx, is_null_or_empty input idx) in
       let text := trim_leading_whitespace (cudf.element input idx) in
       (cudf.is_null input idx = true -> flags_of_row = (false, true))
       /\ (cudf.is_null input idx = false -> text = [] -> flags_of_row = (false, true))
       /\ (cudf.is_null input idx = false ->
           (exists rest, text = bytes_of "null" ++ rest /\ trim_leading_whitespace rest = []) ->
           flags_of_row = (false, false))
       /\ (cudf.is_null input idx = false -> (exists rest, text = x7b :: rest) ->
           flags_of_row = (true, false))
       /\ (cudf.is_null input idx = false -> well_formed_utf8 (cudf.element input idx) ->
           forall b rest, text = b :: rest -> b <> x7b ->
                          (forall tail, text <> bytes_of "null" ++ tail) ->
                          flags_of_row = (false, false)).
Proof.
  intros Hidx.
  destruct (concat_json_returns input) as (delimiter & _ & H).
  do 2 eexists. exists delimiter. split; [exact H|]. split.
  { unfold cudf.element_bool. cbn [cudf.data]. now rewrite nth_map_iota. }
  cbn zeta. rewrite classification_pair. unfold detail.classify_row.
  repeat split.
  - apply classify_null_row.
  - apply classify_blank.
  - intros Hnull (rest & Htext & Hrest). now apply classify_null_literal with (rest := rest).
  - intros Hnull (rest & Htext).
    rewrite (classify_plain 0 input idx x7b rest Hnull Htext); [reflexivity| |].
    + left. vm_compute. reflexivity.
    + intros tail Ht. discriminate Ht.
  - intros Hnull Hutf8 b rest Htext Hb Hnot.
    rewrite (classify_plain 0 input idx b rest Hnull Htext).
    + replace (u8 b =? chr "{") with false; [reflexivity|].
      symmetry. apply Z.eqb_neq. intros Heq. apply Hb. apply u8_inj. exact Heq.
    + right. unfold well_formed_utf8 in Hutf8.
      rewrite (leading_trim (cudf.element input idx)) in Hutf8.
      rewrite utf8_ok_after_ascii in Hutf8
        by apply whitespace_run_ascii, leading_whitespace_all.
      now rewrite Htext in Hutf8.
    + intros tail Ht. apply (Hnot tail). now rewrite Htext.
Qed.

Lemma concat_json_classification_witness :
  0 <= 4 < cudf.size example_rows
  /\ (is_candidate_object example_rows 4, is_null_or_empty example_rows 4) = (false, false).
Proof.
  assert (Hidx : 0 <= 4 < cudf.size example_rows) by (simpl; lia).
  split; [exact Hidx|].
  destruct (concat_json_classification example_rows 4 Hidx)
    as (flags & document & delimiter & _ & _ & _ & _ & _ & _ & Hother).
  apply (Hother eq_refl eq_refl x6e (bytes_of "ot json") eq_refl).
  - discriminate.
  - intros tail Ht. inversion Ht.
Defined.

(** ** The delimiter *)

Lemma in_element_chars (input : cudf.column) (idx : Z) (b : byte) :
  In b (cudf.element input idx) -> In b (cudf.chars input).
Proof.
  unfold cudf.element, cudf.chars. destruct (cudf.data input) as [|d|rows]; try contradiction.
  intros Hin. apply in_concat. exists (nth (Z.to_nat idx) rows []). split; [|exact Hin].
  destruct (Nat.lt_ge_cases (Z.to_nat idx) (length rows)) as [Hlt|Hge].
  - now apply nth_In.
  - rewrite nth_overflow in Hin by assumption. contradiction.
Qed.

Lemma u8_byte_of_char (c : Z) : 0 <= c < 256 -> u8 (byte_of_char c) = c.
Proof.
  intros Hc. unfold byte_of_char, u8. rewrite Z.mod_small by assumption.
  destruct (Byte.of_N (Z.to_N c)) as [b|] eqn:Hb.
  - apply Byte.to_of_N in Hb. rewrite Hb. lia.
  - apply Byte.of_N_None_iff in Hb. lia.
Qed.

Lemma can_be_delimiter_disallowed (c : Z) :
  detail.can_be_delimiter c = true <-> ~ In c disallowed.
Proof.
  unfold detail.can_be_delimiter, disallowed. cbn [map In].
  split.
  - intros H Hin.
    repeat (destruct Hin as [<-|Hin]; [discriminate H|]). exact Hin.
  - intros H.
    repeat match goal with
           | |- context [c =? ?k] =>
               let E := fresh in
               destruct (c =? k) eqn:E;
               [apply Z.eqb_eq in E; exfalso; apply H; rewrite E; tauto|]
           end.
    reflexivity.
Qed.

(** C3, as the specification states it, fails: with the bytes 0 to 9 in the
    rows, the delimiter is the line feed, which is whitespace. *)
Lemma delimiter_may_be_line_feed :
  match concat_json control_bytes_column with
  | Ok (_, _, delimiter) => delimiter = chr "010" /\ meaningful_to_reader delimiter = true
  | Throw _ => False
  end.
Proof. vm_compute. split; reflexivity. Qed.

(** C3, amended.  Whenever [concat_json] returns for rows of fewer than 2^32
    bytes in all, its delimiter is a byte from 0 to 127 that is none of the
    twelve characters [can_be_delimiter] rejects (the four brackets, comma,
    colon, both quotes, backslash, space, tab and CR; line feed is accepted),
    and, unless it is the byte 127, it occurs in no row. *)
Theorem concat_json_delimiter (input flags : cudf.column) (document : list byte)
        (delimiter : Z) :
  concat_json input = Ok (flags, document, delimiter) ->
  Z.of_nat (length (cudf.chars input)) < 2 ^ 32 ->
  0 <= delimiter <= 127
  /\ ~ In delimiter disallowed
  /\ (delimiter <> 127 -> forall idx, ~ In (byte_of_char delimiter) (cudf.element input idx)).
Proof.
  intros Hret Hsize.
  destruct (select_delimiter_returns input) as (d & Hsel & Hrange & Hcan & Hzero & _).
  assert (Hd : d = delimiter).
  { destruct (concat_json_returns input) as (d' & Hsel' & H').
    rewrite Hret in H'. injection H' as _ _ ->. congruence. }
  subst d.
  split; [exact Hrange|]. split; [now apply can_be_delimiter_disallowed|].
  intros Hne idx Hin. apply in_element_chars in Hin.
  assert (Hsample : In delimiter (samples_of input)).
  { unfold samples_of. apply in_map_iff. exists (byte_of_char delimiter).
    split; [|exact Hin]. rewrite u8_byte_of_char by lia.
    unfold to_char. rewrite Z.mod_small by lia. lia. }
  pose proof (counted_in delimiter (samples_of input) Hsample) as Hpos.
  pose proof (counted_bounds delimiter (samples_of input)) as Hb.
  assert (Hlen : length (samples_of input) = length (cudf.chars input))
    by (unfold samples_of; apply length_map).
  rewrite Z.mod_small in Hzero by lia.
  unfold CHAR_MIN, CHAR_MAX in Hpos. lia.
Qed.

Lemma concat_json_delimiter_witness :
  0 <= 0 <= 127
  /\ ~ In 0 disallowed
  /\ (0 <> 127 -> forall idx, ~ In (byte_of_char 0) (cudf.element example_rows idx)).
Proof.
  apply (concat_json_delimiter example_rows
           (cudf.Column cudf.BOOL8 6
              (cudf.bool_data [false; true; false; true; false; false]) None [])
           (json_object "1" ++ x00 :: bytes_of "{}" ++ x00 :: bytes_of "{}" ++ x00 ::
            bytes_of "{}" ++ x00 :: bytes_of "{}" ++ x00 :: json_object "2")
           0).
  - vm_compute. reflexivity.
  - vm_compute. reflexivity.
Defined.

(** C4: the code at the failing input.  With every byte from 0 to 127 in the
    rows, the search neither throws nor finds an absent byte: byte 127 is
    never counted, so its bin reads 0 and it is returned although the row
    holds it. *)
Theorem delimiter_of_all_ascii_rows :
  detail.select_delimiter all_ascii_column = Ok 127
  /\ In (byte_of_char 127) (cudf.element all_ascii_column 0)
  /\ counted 127 (samples_of all_ascii_column) = 0.
Proof.
  split; [vm_compute; reflexivity|]. split; [|apply counted_char_max].
  unfold all_ascii_column, strings_column, cudf.element. cbn [cudf.data Z.to_nat nth].
  apply in_map. apply in_iota. lia.
Qed.

(** ** [remove_quotes] *)

Lemma offsets_length (rows : list (list byte)) (k : nat) :
  fold_right Z.add 0 (map cudf.size_bytes (firstn k rows))
  = Z.of_nat (length (concat (firstn k rows))).
Proof.
  revert k. induction rows as [|r rows IH]; intros k.
  - now rewrite firstn_nil.
  - destruct k; [reflexivity|]. cbn [firstn map fold_right concat].
    rewrite length_app, IH. unfold cudf.size_bytes. lia.
Qed.

Lemma concat_skipn_cons (rows : list (list byte)) (k : nat) :
  concat (skipn k rows) = nth k rows [] ++ concat (skipn (S k) rows).
Proof.
  revert k. induction rows as [|r rows IH]; intros k.
  - now destruct k.
  - destruct k; [reflexivity|]. cbn [skipn nth]. apply IH.
Qed.

Lemma skipn_offset (rows : list (list byte)) (k : nat) :
  skipn (length (concat (firstn k rows))) (concat rows)
  = nth k rows [] ++ concat (skipn (S k) rows).
Proof.
  rewrite <- concat_skipn_cons.
  rewrite <- (firstn_skipn k rows) at 2. rewrite concat_app, skipn_app.
  now rewrite skipn_all, Nat.sub_diag.
Qed.

(** Copying [m] bytes from the pointer [chars + offsets[idx] + shift] stays
    inside row [idx] when [shift + m] does not exceed the size of the row. *)
Lemma copy_from_row (input : cudf.column) (idx shift m : Z) :
  0 <= idx -> 0 <= shift -> 0 <= m ->
  shift + m <= cudf.size_bytes (cudf.element input idx) ->
  firstn (Z.to_nat m) (skipn (Z.to_nat (cudf.offsets input idx + shift)) (cudf.chars input))
  = firstn (Z.to_nat m) (skipn (Z.to_nat shift) (cudf.element input idx)).
Proof.
  intros Hidx Hshift Hm Hfit.
  unfold cudf.offsets, cudf.chars, cudf.element in *.
  destruct (cudf.data input) as [|d|rows];
    try (now rewrite !skipn_nil).
  rewrite offsets_length.
  set (row := nth (Z.to_nat idx) rows []) in *.
  replace (Z.to_nat (Z.of_nat (length (concat (firstn (Z.to_nat idx) rows))) + shift))
    with (Z.to_nat shift + length (concat (firstn (Z.to_nat idx) rows)))%nat by lia.
  rewrite <- skipn_skipn, skipn_offset. fold row.
  unfold cudf.size_bytes in Hfit.
  rewrite skipn_app.
  replace (Z.to_nat shift - length row)%nat with 0%nat by lia.
  rewrite firstn_app.
  replace (Z.to_nat m - length (skipn (Z.to_nat shift) row))%nat with 0%nat
    by (rewrite length_skipn; lia).
  cbn [skipn firstn]. now rewrite app_nil_r.
Qed.

Lemma offsets_step (input : cudf.column) (idx : Z) :
  0 <= idx ->
  cudf.offsets input (idx + 1) - cudf.offsets input idx
  = cudf.size_bytes (cudf.element input idx).
Proof.
  intros Hidx. unfold cudf.offsets, cudf.element.
  destruct (cudf.data input) as [|d|rows]; try reflexivity.
  rewrite !offsets_length.
  replace (Z.to_nat (idx + 1)) with (S (Z.to_nat idx)) by lia.
  generalize (Z.to_nat idx) as k. intros k.
  revert k. induction rows as [|r rows IH]; intros k.
  - destruct k; reflexivity.
  - destruct k.
    + cbn [firstn concat nth]. rewrite app_nil_r. unfold cudf.size_bytes. simpl. lia.
    + cbn [nth]. rewrite <- IH. cbn [firstn concat]. rewrite !length_app. lia.
Qed.

Lemma output_size_fits (input : cudf.column) (idx : Z) :
  let size := cudf.size_bytes (cudf.element input idx) in
  let m := detail.output_size_of_row input idx in
  0 <= m /\ (if size =? m then 0 else 1) + m <= size.
Proof.
  cbn zeta. unfold detail.output_size_of_row.
  set (size := cudf.size_bytes (cudf.element input idx)).
  assert (0 <= size) by (unfold size, cudf.size_bytes; lia).
  destruct (cudf.is_null input idx).
  - destruct (size =? 0) eqn:E; [apply Z.eqb_eq in E | apply Z.eqb_neq in E]; lia.
  - destruct (1 <? size) eqn:Hlt; cbn [andb].
    + apply Z.ltb_lt in Hlt.
      destruct (_ && _).
      * replace (size =? size - 2) with false by (symmetry; apply Z.eqb_neq; lia). lia.
      * rewrite Z.eqb_refl. lia.
    + rewrite Z.eqb_refl. lia.
Qed.

(** Row [idx] of the result: [output_sizes[idx]] bytes of the input row, taken
    from its second byte on when the size changed. *)
Lemma remove_quotes_row (input : cudf.column) (idx : Z) :
  0 <= idx < cudf.size input ->
  cudf.element (remove_quotes input) idx
  = let row := cudf.element input idx in
    let m := detail.output_size_of_row input idx in
    firstn (Z.to_nat m) (skipn (if cudf.size_bytes row =? m then 0%nat else 1%nat) row).
Proof.
  intros Hidx. unfold remove_quotes, detail.remove_quotes, detail.make_chars_buffer,
    thrust.tabulate.
  unfold cudf.element at 1. cbn [cudf.data fst snd].
  rewrite nth_map_iota by exact Hidx.
  rewrite nth_map_iota by exact Hidx.
  rewrite offsets_step by lia. cbn zeta.
  destruct (output_size_fits input idx) as [Hm Hfit].
  rewrite copy_from_row; try lia.
  - now destruct (_ =? _).
  - now destruct (_ =? _).
Qed.

Lemma count_if_cons {A : Type} (p : A -> bool) (a : A) (l : list A) :
  count_if p (a :: l) = b2z (p a) + count_if p l.
Proof. unfold count_if. cbn [filter]. destruct (p a); cbn [length b2z]; lia. Qed.

Lemma total_width_utf8 (pending : nat) (s : list byte) :
  utf8_ok pending s = true -> total_width s + Z.of_nat pending = cudf.size_bytes s.
Proof.
  unfold cudf.size_bytes. revert pending.
  induction s as [|b s IH]; intros pending Hok.
  - cbn [utf8_ok] in Hok. apply Nat.eqb_eq in Hok. subst. reflexivity.
  - cbn [utf8_ok] in Hok. cbn [total_width fold_right length]. fold (total_width s).
    destruct pending as [|pending]; apply andb_true_iff in Hok; destruct Hok as [Hw Hok].
    + apply Z.leb_le in Hw. apply IH in Hok. lia.
    + apply Z.eqb_eq in Hw. apply IH in Hok. lia.
Qed.

Lemma total_width_no_character (s : list byte) :
  cudf.characters_in_string s = 0 -> total_width s = 0.
Proof.
  unfold cudf.characters_in_string.
  induction s as [|b s IH]; [reflexivity|].
  rewrite count_if_cons, is_begin_width. cbn [total_width fold_right]. fold (total_width s).
  pose proof (count_if_bounds (fun b0 => cudf.is_begin_utf8_char (u8 b0)) s) as Hb.
  destruct (cudf.bytes_in_utf8_byte (u8 b) =? 0) eqn:Hw; cbn [negb b2z]; intros H.
  - apply Z.eqb_eq in Hw. rewrite Hw, IH by lia. reflexivity.
  - lia.
Qed.

(** Asked for a character position that the row does not have,
    [bytes_to_character_position] runs through the whole row. *)
Lemma bytes_to_character_position_exhausted (s : list byte) (pos bytes : Z) :
  cudf.characters_in_string s <= pos ->
  fst (cudf.bytes_to_character_position s pos bytes) = bytes + total_width s.
Proof.
  revert pos bytes. induction s as [|b s IH]; intros pos bytes Hpos.
  - cbn. lia.
  - cbn [cudf.bytes_to_character_position].
    destruct (0 <? pos) eqn:Hlt.
    + unfold cudf.characters_in_string in Hpos. rewrite count_if_cons, is_begin_width in Hpos.
      cbn [total_width fold_right]. fold (total_width s).
      destruct (cudf.bytes_in_utf8_byte (u8 b) =? 0) eqn:Hw; cbn [negb b2z] in Hpos.
      * apply Z.eqb_eq in Hw. rewrite IH by (unfold cudf.characters_in_string; lia). lia.
      * rewrite IH by (unfold cudf.characters_in_string; lia). lia.
    + apply Z.ltb_ge in Hlt. cbn [fst].
      pose proof (count_if_bounds (fun b0 => cudf.is_begin_utf8_char (u8 b0)) (b :: s)) as Hb.
      rewrite total_width_no_character; [lia|].
      unfold cudf.characters_in_string in *. lia.
Qed.

(** In a row of well-formed UTF-8 that holds a multi-byte character, the
    character position [size_bytes - 1] lies past the last character. *)
Lemma char_at_size_multibyte (s : list byte) :
  well_formed_utf8 s ->
  cudf.characters_in_string s <> cudf.size_bytes s ->
  cudf.char_at s (cudf.size_bytes s - 1) = 0.
Proof.
  intros Hok Hne. unfold cudf.char_at, cudf.byte_offset.
  replace (_ =? _) with false by (symmetry; apply Z.eqb_neq; exact Hne).
  pose proof (count_if_bounds (fun b => cudf.is_begin_utf8_char (u8 b)) s) as Hb.
  rewrite bytes_to_character_position_exhausted
    by (unfold cudf.characters_in_string, cudf.size_bytes in *; lia).
  apply total_width_utf8 in Hok.
  replace (cudf.size_bytes s <=? 0 + total_width s) with true
    by (symmetry; apply Z.leb_le; lia).
  reflexivity.
Qed.

Lemma char_at_size_single (s : list byte) :
  cudf.characters_in_string s = cudf.size_bytes s -> s <> [] ->
  cudf.char_at s (cudf.size_bytes s - 1) = cudf.to_char_utf8 [last s x00].
Proof.
  intros Heq Hne. unfold cudf.char_at, cudf.byte_offset.
  rewrite Heq, Z.eqb_refl.
  replace (_ <=? _) with false by (symmetry; apply Z.leb_gt; lia).
  f_equal. rewrite (app_removelast_last x00 Hne) at 2.
  assert (Hlen : length s = S (length (removelast s))).
  { rewrite (app_removelast_last x00 Hne) at 1. rewrite length_app. simpl. lia. }
  unfold cudf.size_bytes. rewrite skipn_app.
  replace (Z.to_nat (Z.of_nat (length s) - 1)) with (length (removelast s)) by lia.
  now rewrite skipn_all, Nat.sub_diag.
Qed.

Lemma char_at_first (s : list byte) (c : Z) :
  0 < c < 128 -> cudf.char_at s 0 = c <-> s <> [] /\ u8 (hd x00 s) = c.
Proof.
  intros Hc. pose proof (char_at_eq_ascii [] s c (Forall_nil _) Hc) as H.
  cbn [app length] in H. change (Z.of_nat 0) with 0 in H. rewrite H. split.
  - intros (b & rest & -> & Hb). split; [discriminate|exact Hb].
  - intros [Hne Hb]. destruct s as [|b rest]; [contradiction|]. now exists b, rest.
Qed.

(** The test of [remove_quotes] holds of no row that is not quoted, as long
    as the row is well-formed UTF-8. *)
Lemma output_size_unquoted (input : cudf.column) (idx : Z) :
  cudf.is_null input idx = false ->
  well_formed_utf8 (cudf.element input idx) ->
  quoted (cudf.element input idx) = false ->
  detail.output_size_of_row input idx = cudf.size_bytes (cudf.element input idx).
Proof.
  intros Hnull Hok Hq. unfold detail.output_size_of_row. rewrite Hnull.
  set (s := cudf.element input idx) in *.
  match goal with |- (if ?c then _ else _) = _ => destruct c eqn:Hc end; [|reflexivity].
  exfalso. apply andb_true_iff in Hc. destruct Hc as [Hc Hlast].
  apply andb_true_iff in Hc. destruct Hc as [Hsize Hfirst].
  apply Z.eqb_eq in Hfirst, Hlast.
  apply char_at_first in Hfirst; [|vm_compute; split; reflexivity].
  destruct Hfirst as [Hne Hfirst].
  destruct (Z.eq_dec (cudf.characters_in_string s) (cudf.size_bytes s)) as [Heq|Hneq].
  - rewrite char_at_size_single in Hlast by assumption.
    apply to_char_utf8_eq_ascii in Hlast; [|vm_compute; split; [discriminate|reflexivity]].
    unfold quoted in Hq. rewrite Hsize, Hfirst, Hlast in Hq. discriminate Hq.
  - rewrite char_at_size_multibyte in Hlast by assumption. discriminate Hlast.
Qed.

(** The test holds of every quoted row of single-byte characters. *)
Lemma output_size_quoted (input : cudf.column) (idx : Z) :
  cudf.is_null input idx = false ->
  Forall is_ascii (cudf.element input idx) ->
  quoted (cudf.element input idx) = true ->
  detail.output_size_of_row input idx = cudf.size_bytes (cudf.element input idx) - 2.
Proof.
  intros Hnull Hascii Hq. unfold detail.output_size_of_row. rewrite Hnull.
  set (s := cudf.element input idx) in *.
  unfold quoted in Hq. apply andb_true_iff in Hq. destruct Hq as [Hq Hlast].
  apply andb_true_iff in Hq. destruct Hq as [Hsize Hfirst].
  apply Z.eqb_eq in Hfirst, Hlast.
  assert (Hne : s <> []).
  { intros E. rewrite E in Hsize. discriminate Hsize. }
  rewrite Hsize. cbn [andb].
  replace (cudf.char_at s 0 =? chr "034") with true.
  2:{ symmetry. apply Z.eqb_eq. apply char_at_first; [vm_compute; split; reflexivity|].
      split; assumption. }
  rewrite char_at_size_single by (try apply characters_in_string_ascii; assumption).
  replace (cudf.to_char_utf8 [last s x00] =? chr "034") with true; [reflexivity|].
  symmetry. apply Z.eqb_eq.
  apply to_char_utf8_eq_ascii; [vm_compute; split; [discriminate|reflexivity]|exact Hlast].
Qed.

Lemma remove_quotes_validity (input : cudf.column) (idx : Z) :
  0 <= idx < cudf.size input ->
  cudf.is_valid (remove_quotes input) idx = cudf.is_valid input idx.
Proof.
  intros Hidx. unfold remove_quotes, detail.remove_quotes, cudf.is_valid, cudf.copy_bitmask.
  cbn [cudf.null_mask].
  destruct (cudf.null_mask input) as [m|]; [|reflexivity].
  unfold cudf.bit_is_set. rewrite nth_firstn.
  replace (Z.to_nat (cudf.word_index idx) <? Z.to_nat (cudf.num_bitmask_words (cudf.size input)))%nat
    with true; [reflexivity|].
  symmetry. apply Nat.ltb_lt. unfold cudf.word_index, cudf.num_bitmask_words.
  assert (0 <= idx / 32) by (apply Z.div_pos; lia).
  assert (idx / 32 < (cudf.size input + 31) / 32).
  { apply Z.div_lt_upper_bound; [lia|].
    pose proof (Z.mul_div_le idx 32).
    pose proof (Z.mod_pos_bound (cudf.size input + 31) 32).
    pose proof (Z.div_mod (cudf.size input + 31) 32). lia. }
  lia.
Qed.

(** What [remove_quotes] does by design, on rows of single-byte characters:
    a quoted row loses its two quotes, any other row is kept. *)
Lemma remove_quotes_single_byte_rows (input : cudf.column) (idx : Z) :
  0 <= idx < cudf.size input ->
  cudf.is_null input idx = false ->
  Forall is_ascii (cudf.element input idx) ->
  cudf.element (remove_quotes input) idx
  = if quoted (cudf.element input idx) then unquoted (cudf.element input idx)
    else cudf.element input idx.
Proof.
  intros Hidx Hnull Hascii. rewrite remove_quotes_row by exact Hidx. cbn zeta.
  set (s := cudf.element input idx) in *.
  destruct (quoted s) eqn:Hq.
  - rewrite output_size_quoted by assumption. fold s.
    replace (cudf.size_bytes s =? cudf.size_bytes s - 2) with false
      by (symmetry; apply Z.eqb_neq; lia).
    unfold unquoted. rewrite removelast_firstn_len, length_tl.
    unfold cudf.size_bytes. destruct s as [|b s]; [reflexivity|].
    cbn [skipn tl length]. f_equal. lia.
  - rewrite output_size_unquoted; try assumption.
    + fold s. rewrite Z.eqb_refl. cbn [skipn]. unfold cudf.size_bytes.
      rewrite Nat2Z.id. apply firstn_all.
    + unfold well_formed_utf8. fold s.
      rewrite <- (app_nil_r s), utf8_ok_after_ascii by assumption. reflexivity.
Qed.

(** A row of well-formed UTF-8 that holds a multi-byte character is never
    seen as quoted: it is returned as it is, whatever its first and last
    bytes. *)
Lemma remove_quotes_multibyte_rows (input : cudf.column) (idx : Z) :
  0 <= idx < cudf.size input ->
  cudf.is_null input idx = false ->
  well_formed_utf8 (cudf.element input idx) ->
  cudf.characters_in_string (cudf.element input idx)
  <> cudf.size_bytes (cudf.element input idx) ->
  cudf.element (remove_quotes input) idx = cudf.element input idx.
Proof.
  intros Hidx Hnull Hok Hmulti. rewrite remove_quotes_row by exact Hidx. cbn zeta.
  assert (Hsize : detail.output_size_of_row input idx
                  = cudf.size_bytes (cudf.element input idx)).
  { unfold detail.output_size_of_row. rewrite Hnull.
    rewrite (char_at_size_multibyte _ Hok Hmulti).
    now rewrite andb_false_r. }
  rewrite Hsize, Z.eqb_refl. cbn [skipn]. unfold cudf.size_bytes.
  rewrite Nat2Z.id. apply firstn_all.
Qed.

(** C7: the code at the failing input.  Row 4 of the example is not null, is
    longer than one byte and begins and ends with a double quote; it holds a
    two-byte character, so [d_str[size - 1]] reads past its last character
    and the row is returned with its quotes. *)
Theorem remove_quotes_keeps_quotes_of_multibyte_row :
  cudf.is_null example_quoted 4 = false
  /\ quoted (cudf.element example_quoted 4) = true
  /\ cudf.element (remove_quotes example_quoted) 4 = [x22; xc3; xa9; x22]
  /\ unquoted (cudf.element example_quoted 4) = [xc3; xa9].
Proof. repeat split; reflexivity. Qed.

(** ** No failure on a row that does not match *)

(** On rows of well-formed UTF-8 no row makes an invocation fail.
    [concat_json] returns, with a flag for every row, whatever the bytes of
    the rows are; [remove_quotes] returns a column of as many rows in which a
    row of well-formed UTF-8 that is not quoted is kept as it is;
    [cast_strings_to_booleans] returns a column of as many rows in which a
    row that is neither [true] nor [false] is null, whatever its bytes. *)
Lemma well_formed_rows_do_not_fail (input : cudf.column) (idx : Z) :
  0 <= idx < cudf.size input ->
  (exists flags document delimiter,
      concat_json input = Ok (flags, document, delimiter)
      /\ cudf.size flags = cudf.size input
      /\ cudf.element_bool flags idx = is_null_or_empty input idx)
  /\ cudf.size (remove_quotes input) = cudf.size input
  /\ (cudf.is_null input idx = false -> well_formed_utf8 (cudf.element input idx) ->
      quoted (cudf.element input idx) = false ->
      cudf.is_valid (remove_quotes input) idx = true
      /\ cudf.element (remove_quotes input) idx = cudf.element input idx)
  /\ cudf.size (cast_strings_to_booleans input) = cudf.size input
  /\ (cudf.is_null input idx = false ->
      cudf.element input idx <> bytes_of "true" ->
      cudf.element input idx <> bytes_of "false" ->
      cudf.is_valid (cast_strings_to_booleans input) idx = false).
Proof.
  intros Hidx. split; [|split; [|split; [|split]]].
  - destruct (concat_json_returns input) as (delimiter & _ & H).
    do 2 eexists. exists delimiter. split; [exact H|]. split; [reflexivity|].
    unfold cudf.element_bool. cbn [cudf.data]. now rewrite nth_map_iota.
  - reflexivity.
  - intros Hnull Hok Hq. split.
    + rewrite remove_quotes_validity by exact Hidx.
      unfold cudf.is_null in Hnull. now apply negb_false_iff in Hnull.
    + rewrite remove_quotes_row by exact Hidx. cbn zeta.
      rewrite output_size_unquoted by assumption.
      rewrite Z.eqb_refl. cbn [skipn]. unfold cudf.size_bytes.
      rewrite Nat2Z.id. apply firstn_all.
  - apply size_cast_strings_to_booleans.
  - now apply non_boolean_row_is_null.
Qed.

(** C9: the code at the failing input.  The row of the example is not null
    and is not quoted, its last byte being [A].  It counts three characters
    in five bytes, so [d_str[size - 1]], a character position, stops at byte
    offset 3, where a double quote lies: the row is taken as quoted and comes
    out without its first byte and its last byte, and is not passed through.
    Nothing is thrown: [concat_json] returns at this column, and
    [cast_strings_to_booleans] makes the row null. *)
Theorem remove_quotes_alters_row_that_is_not_quoted :
  cudf.is_null example_stray_bytes 0 = false
  /\ cudf.element example_stray_bytes 0 = [x22; x80; x80; x22; x41]
  /\ quoted (cudf.element example_stray_bytes 0) = false
  /\ cudf.characters_in_string (cudf.element example_stray_bytes 0) = 3
  /\ cudf.byte_offset (cudf.element example_stray_bytes 0) 4 = 3
  /\ cudf.char_at (cudf.element example_stray_bytes 0) 4 = chr "034"
  /\ cudf.element (remove_quotes example_stray_bytes) 0 = [x80; x80; x22]
  /\ (exists flags document delimiter,
        concat_json example_stray_bytes = Ok (flags, document, delimiter))
  /\ cudf.is_valid (cast_strings_to_booleans example_stray_bytes) 0 = false.
Proof.
  repeat split; try reflexivity.
  do 3 eexists. vm_compute. reflexivity.
Qed.

(** * Further properties of the code *)

(** ** The delimiter of [concat_json] *)

Lemma counted_positive_in (c : Z) (samples : list Z) :
  0 < counted c samples -> In c samples.
Proof.
  unfold counted, count_if. intros H.
  destruct (filter _ samples) as [|x l] eqn:Hf; [simpl in H; lia|].
  assert (Hx : In x (x :: l)) by now left.
  rewrite <- Hf in Hx. apply filter_In in Hx. destruct Hx as [Hin Hp].
  apply andb_true_iff in Hp. destruct Hp as [_ Hp]. apply Z.eqb_eq in Hp. now subst.
Qed.

Lemma byte_of_char_to_char (b : byte) : byte_of_char (to_char (u8 b)) = b.
Proof. destruct b; reflexivity. Qed.

Lemma select_delimiter_of_concat_json (input flags : cudf.column) (document : list byte)
      (delimiter : Z) :
  concat_json input = Ok (flags, document, delimiter) ->
  detail.select_delimiter input = Ok delimiter.
Proof.
  intros H. destruct (concat_json_returns input) as (d & Hsel & Hret).
  rewrite H in Hret. injection Hret as _ _ ->. exact Hsel.
Qed.

(** Every byte value below the one the search returns is rejected by
    [can_be_delimiter] or lies in the chars buffer. *)
Lemma select_delimiter_least (input : cudf.column) (delimiter c : Z) :
  detail.select_delimiter input = Ok delimiter ->
  0 <= c < delimiter -> detail.can_be_delimiter c = true ->
  In (byte_of_char c) (cudf.chars input).
Proof.
  intros Hsel Hc Hcan.
  destruct (select_delimiter_returns input) as (d & Hsel' & _ & _ & _ & Hleast).
  assert (d = delimiter) by congruence. subst d.
  destruct (Hleast c Hc) as [Hpos|Hno]; [|congruence].
  assert (Hcount : 0 < counted c (samples_of input)).
  { destruct (Z.eq_dec (counted c (samples_of input)) 0) as [E|E].
    - rewrite E in Hpos. discriminate Hpos.
    - pose proof (counted_bounds c (samples_of input)). lia. }
  apply counted_positive_in in Hcount. unfold samples_of in Hcount.
  apply in_map_iff in Hcount. destruct Hcount as (b & Hb & Hin).
  rewrite <- Hb, byte_of_char_to_char. exact Hin.
Qed.

(** X1.  The delimiter that [concat_json] returns is the least candidate: every
    smaller byte value that [can_be_delimiter] accepts occurs in the chars
    buffer of the input.  In particular, when no row holds the byte 0, the
    delimiter is the byte 0. *)
Theorem concat_json_delimiter_is_least (input flags : cudf.column) (document : list byte)
        (delimiter : Z) :
  concat_json input = Ok (flags, document, delimiter) ->
  (forall c, 0 <= c < delimiter -> detail.can_be_delimiter c = true ->
             In (byte_of_char c) (cudf.chars input))
  /\ (~ In x00 (cudf.chars input) -> delimiter = 0).
Proof.
  intros H. apply select_delimiter_of_concat_json in H. split.
  - intros c Hc Hcan. now apply (select_delimiter_least input delimiter c).
  - intros Hnul.
    destruct (select_delimiter_returns input) as (d & Hsel & Hrange & _).
    assert (d = delimiter) by congruence. subst d.
    destruct (Z.eq_dec delimiter 0) as [E|E]; [exact E|].
    exfalso. apply Hnul.
    apply (select_delimiter_least input delimiter 0 H); [lia|reflexivity].
Qed.

Lemma concat_json_delimiter_is_least_witness :
  In (byte_of_char 3) (cudf.chars control_bytes_column).
Proof.
  refine (proj1 (concat_json_delimiter_is_least control_bytes_column
                   (cudf.Column cudf.BOOL8 1 (cudf.bool_data [false]) None [])
                   (bytes_of "{}") 10 _) 3 _ _).
  - vm_compute. reflexivity.
  - lia.
  - reflexivity.
Defined.

(** X2.  For a column without rows and without bytes, [concat_json] returns
    an empty flag column, an empty document (no braces, no delimiter) and the
    delimiter 0. *)
Theorem concat_json_of_no_rows (input : cudf.column) :
  cudf.size input = 0 -> cudf.chars input = [] ->
  concat_json input = Ok (cudf.Column cudf.BOOL8 0 (cudf.bool_data []) None [], [], 0).
Proof.
  intros Hsize Hchars.
  destruct (concat_json_returns input) as (d & Hsel & Hret).
  rewrite Hret, Hsize. cbn [iota Z.to_nat seq map join_with].
  assert (Hd : d = 0).
  { destruct (select_delimiter_returns input) as (d' & Hsel' & Hrange & _).
    assert (d' = d) by congruence. subst d'.
    destruct (Z.eq_dec d 0) as [E|E]; [exact E|].
    exfalso. pose proof (select_delimiter_least input d 0 Hsel) as Hin.
    rewrite Hchars in Hin. apply Hin; [lia|reflexivity]. }
  now rewrite Hd.
Qed.

Lemma concat_json_of_no_rows_witness :
  concat_json (strings_column [] None)
  = Ok (cudf.Column cudf.BOOL8 0 (cudf.bool_data []) None [], [], 0).
Proof. apply (concat_json_of_no_rows (strings_column [] None)); reflexivity. Defined.

(** ** The flags of a row *)

Lemma skip_whitespace_index (fuel : nat) (d_str : list byte) (size i ch : Z) :
  i <= fst (fst (detail.skip_whitespace fuel d_str size i ch)).
Proof.
  revert i ch. induction fuel as [|fuel IH]; intros i ch; cbn [detail.skip_whitespace].
  - simpl. lia.
  - destruct (i <? size); [|simpl; lia].
    destruct (detail.not_whitespace _); [simpl; lia|].
    specialize (IH (i + 1) (to_char (cudf.char_at d_str i))). lia.
Qed.

(** X3.  The two flags of a row are never both set, for any bytes: a row that
    is taken as a candidate object is not null, holds at least one byte, and
    is not flagged null-or-empty. *)
Theorem candidate_rows_are_not_null_or_empty (input : cudf.column) (idx : Z) :
  is_candidate_object input idx = true ->
  cudf.is_null input idx = false
  /\ cudf.element input idx <> []
  /\ is_null_or_empty input idx = false.
Proof.
  unfold is_candidate_object, is_null_or_empty, detail.classify_row, detail.classify_row_from.
  destruct (cudf.is_null input idx); [discriminate|].
  set (s := cudf.element input idx).
  pose proof (skip_whitespace_index (Z.to_nat (cudf.size_bytes s)) s (cudf.size_bytes s) 0 0)
    as H1.
  destruct (detail.skip_whitespace (Z.to_nat (cudf.size_bytes s)) s (cudf.size_bytes s) 0 0)
    as [[i ch] stopped]. cbn [fst] in H1.
  assert (Hne : forall j, 0 <= j -> (j <? cudf.size_bytes s) = true -> s <> []).
  { intros j Hj Hlt E. rewrite E in Hlt. apply Z.ltb_lt in Hlt.
    unfold cudf.size_bytes in Hlt. simpl in Hlt. lia. }
  match goal with |- context [if ?c then _ else _] => destruct c end.
  - pose proof (skip_whitespace_index (Z.to_nat (cudf.size_bytes s - (i + 4))) s
                  (cudf.size_bytes s) (i + 4) ch) as H2.
    destruct (detail.skip_whitespace _ s (cudf.size_bytes s) (i + 4) ch)
      as [[i2 ch2] stopped2]. cbn [fst] in H2.
    destruct stopped2; cbn [negb]; [|discriminate].
    destruct (i2 <? cudf.size_bytes s) eqn:Hlt; cbn [andb negb].
    + destruct (negb (ch2 =? chr "{")); cbn [fst snd]; [discriminate|].
      intros _. repeat split. apply (Hne i2); [lia|exact Hlt].
    + cbn [fst]. discriminate.
  - destruct (i <? cudf.size_bytes s) eqn:Hlt; cbn [andb negb].
    + destruct (negb (ch =? chr "{")); cbn [fst snd]; [discriminate|].
      intros _. repeat split. apply (Hne i); [lia|exact Hlt].
    + cbn [fst]. discriminate.
Qed.

Lemma candidate_rows_are_not_null_or_empty_witness :
  cudf.is_null example_rows 0 = false
  /\ cudf.element example_rows 0 <> []
  /\ is_null_or_empty example_rows 0 = false.
Proof. apply (candidate_rows_are_not_null_or_empty example_rows 0). reflexivity. Defined.

(** X4.  [ch] is declared without a value and assigned in the loops only; the
    flags of a row are the same whatever [ch] holds at its declaration, so no
    indeterminate value reaches the result. *)
Theorem indeterminate_ch_is_never_used (ch0 : Z) (input : cudf.column) (idx : Z) :
  detail.classify_row_from ch0 input idx = detail.classify_row input idx.
Proof. apply classify_row_from_any. Qed.

Lemma strip_prefix_some (prefix text rest : list byte) :
  strip_prefix prefix text = Some rest -> text = prefix ++ rest.
Proof.
  revert text. induction prefix as [|p prefix IH]; intros text H.
  - simpl in H. now injection H as ->.
  - destruct text as [|b text]; [discriminate H|]. simpl in H.
    destruct (Byte.eqb p b) eqn:E; [|discriminate H].
    apply Byte.byte_dec_bl in E. subst b. simpl. f_equal. now apply IH.
Qed.

Lemma strip_prefix_app (prefix rest : list byte) :
  strip_prefix prefix (prefix ++ rest) = Some rest.
Proof.
  induction prefix as [|p prefix IH]; [reflexivity|].
  simpl. now rewrite (Byte.byte_dec_lb (eq_refl p)).
Qed.

Lemma flags_of_text_null_or_empty (text : list byte) :
  snd (flags_of_text text) = true <-> text = [].
Proof.
  unfold flags_of_text. destruct text as [|b text]; [now split|].
  split; [|discriminate].
  destruct (strip_prefix _ _) as [rest|]; [|discriminate].
  destruct (trim_leading_whitespace rest); discriminate.
Qed.

(** The flags of a row that is not null and holds well-formed UTF-8 depend
    on the text after its leading whitespace only. *)
Lemma classify_row_of_text (ch0 : Z) (input : cudf.column) (idx : Z) :
  cudf.is_null input idx = false ->
  well_formed_utf8 (cudf.element input idx) ->
  detail.classify_row_from ch0 input idx
  = flags_of_text (trim_leading_whitespace (cudf.element input idx)).
Proof.
  intros Hnull Hok.
  set (s := cudf.element input idx) in *.
  assert (Htext : utf8_ok 0 (trim_leading_whitespace s) = true).
  { unfold well_formed_utf8 in Hok. rewrite (leading_trim s) in Hok.
    now rewrite utf8_ok_after_ascii in Hok
      by apply whitespace_run_ascii, leading_whitespace_all. }
  destruct (trim_leading_whitespace s) as [|b t] eqn:Htrim.
  - now apply classify_blank.
  - unfold flags_of_text.
    destruct (strip_prefix (bytes_of "null") (b :: t)) as [rest|] eqn:Hstrip.
    + apply strip_prefix_some in Hstrip.
      assert (Hrest : utf8_ok 0 (trim_leading_whitespace rest) = true).
      { rewrite Hstrip in Htext.
        rewrite utf8_ok_after_ascii in Htext by (repeat constructor).
        rewrite (leading_trim rest) in Htext.
        now rewrite utf8_ok_after_ascii in Htext
          by apply whitespace_run_ascii, leading_whitespace_all. }
      assert (Htrim' : trim_leading_whitespace s = bytes_of "null" ++ rest) by congruence.
      destruct (trim_leading_whitespace rest) as [|c v] eqn:Hr.
      * now apply classify_null_literal with (rest := rest).
      * apply classify_null_then_text with (rest := rest) (v := v); try assumption.
        now right.
    + apply classify_plain with (t := t); try assumption.
      * now right.
      * intros rest E. rewrite E, strip_prefix_app in Hstrip. discriminate Hstrip.
Qed.

(** X5.  The flags of a row that is not null and holds well-formed UTF-8 are
    those of [flags_of_text] on the text after the leading whitespace:
    (false, true) without text; for text that begins with [null], (false,
    false) when only whitespace follows and otherwise candidate exactly when
    the first byte after that whitespace is an opening brace; for any other
    text, candidate exactly when its first byte is an opening brace.  Such a
    row is flagged null-or-empty exactly when it is empty or all whitespace. *)
Theorem flags_of_well_formed_row (input : cudf.column) (idx : Z) :
  cudf.is_null input idx = false ->
  well_formed_utf8 (cudf.element input idx) ->
  (is_candidate_object input idx, is_null_or_empty input idx)
  = flags_of_text (trim_leading_whitespace (cudf.element input idx))
  /\ (is_null_or_empty input idx = true
      <-> trim_leading_whitespace (cudf.element input idx) = []).
Proof.
  intros Hnull Hok.
  pose proof (classify_row_of_text 0 input idx Hnull Hok) as H.
  fold (detail.classify_row input idx) in H.
  split.
  - now rewrite classification_pair.
  - unfold is_null_or_empty. rewrite H. apply flags_of_text_null_or_empty.
Qed.

Lemma flags_of_well_formed_row_witness :
  (is_candidate_object example_null_prefixed 0, is_null_or_empty example_null_prefixed 0)
  = (true, false).
Proof.
  exact (proj1 (flags_of_well_formed_row example_null_prefixed 0 eq_refl eq_refl)).
Defined.

(** ** The document of [concat_json], read back *)

Lemma split_on_cons (d : byte) (document : list byte) :
  split_on d document = hd [] (split_on d document) :: tl (split_on d document).
Proof.
  destruct document as [|b rest]; [reflexivity|]. cbn [split_on].
  destruct (Byte.eqb b d); [reflexivity|]. now destruct (split_on d rest).
Qed.

Lemma split_on_free (d : byte) (p rest : list byte) :
  ~ In d p ->
  split_on d (p ++ rest) = (p ++ hd [] (split_on d rest)) :: tl (split_on d rest).
Proof.
  induction p as [|b p IH]; intros Hfree.
  - apply split_on_cons.
  - cbn [app split_on].
    destruct (Byte.eqb b d) eqn:E.
    + apply Byte.byte_dec_bl in E. exfalso. apply Hfree. now left.
    + rewrite IH by (intros H; apply Hfree; now right). reflexivity.
Qed.

Lemma split_on_join_with (d : byte) (payloads : list (list byte)) :
  payloads <> [] -> (forall p, In p payloads -> ~ In d p) ->
  split_on d (join_with d payloads) = payloads.
Proof.
  induction payloads as [|p payloads IH]; intros Hne Hfree; [congruence|].
  destruct payloads as [|q payloads].
  - cbn [join_with]. rewrite <- (app_nil_r p) at 1.
    rewrite split_on_free by (apply Hfree; now left).
    cbn. now rewrite app_nil_r.
  - change (join_with d (p :: q :: payloads))
      with (p ++ d :: join_with d (q :: payloads)).
    rewrite split_on_free by (apply Hfree; now left).
    cbn [split_on]. rewrite (Byte.byte_dec_lb (eq_refl d)). cbn [hd tl].
    rewrite app_nil_r, IH; [reflexivity|discriminate|].
    intros r Hr. apply Hfree. now right.
Qed.

Lemma delimiter_absent (input : cudf.column) (delimiter : Z) :
  detail.select_delimiter input = Ok delimiter ->
  Z.of_nat (length (cudf.chars input)) < 2 ^ 32 -> delimiter <> 127 ->
  ~ In (byte_of_char delimiter) (cudf.chars input).
Proof.
  intros Hsel Hsize Hne Hin.
  destruct (select_delimiter_returns input) as (d & Hsel' & Hrange & _ & Hzero & _).
  assert (d = delimiter) by congruence. subst d.
  assert (Hsample : In delimiter (samples_of input)).
  { unfold samples_of. apply in_map_iff. exists (byte_of_char delimiter).
    split; [|exact Hin]. rewrite u8_byte_of_char by lia.
    unfold to_char. rewrite Z.mod_small by lia. lia. }
  pose proof (counted_in delimiter (samples_of input) Hsample) as Hpos.
  pose proof (counted_bounds delimiter (samples_of input)) as Hb.
  assert (Hlen : length (samples_of input) = length (cudf.chars input))
    by (unfold samples_of; apply length_map).
  rewrite Z.mod_small in Hzero by lia.
  unfold CHAR_MIN, CHAR_MAX in Hpos. lia.
Qed.

(** X6.  The document can be read back row by row.  When [concat_json]
    returns for at least one row and fewer than 2^32 bytes, with a delimiter
    other than the byte 127, cutting the document at every delimiter byte
    gives back one piece per row, in row order: the bytes of the row for a
    candidate and [{}] for any other row. *)
Theorem concat_json_document_splits (input flags : cudf.column) (document : list byte)
        (delimiter : Z) :
  concat_json input = Ok (flags, document, delimiter) ->
  0 < cudf.size input ->
  Z.of_nat (length (cudf.chars input)) < 2 ^ 32 ->
  delimiter <> 127 ->
  split_on (byte_of_char delimiter) document = map (payload input) (iota (cudf.size input))
  /\ Z.of_nat (length (split_on (byte_of_char delimiter) document)) = cudf.size input.
Proof.
  intros Hret Hrows Hsize Hne.
  pose proof (select_delimiter_of_concat_json _ _ _ _ Hret) as Hsel.
  destruct (concat_json_returns input) as (d & _ & H).
  rewrite Hret in H. injection H as _ -> <-.
  assert (Hsplit : split_on (byte_of_char delimiter)
                     (join_with (byte_of_char delimiter)
                                (map (payload input) (iota (cudf.size input))))
                   = map (payload input) (iota (cudf.size input))).
  { apply split_on_join_with.
    - intros E. apply (f_equal (@length _)) in E.
      rewrite length_map, length_iota in E. simpl in E. lia.
    - intros p Hp Hin. apply in_map_iff in Hp. destruct Hp as (idx & <- & _).
      unfold payload in Hin. destruct (is_candidate_object input idx).
      + apply in_element_chars in Hin. now apply (delimiter_absent input delimiter).
      + destruct (select_delimiter_returns input) as (d' & Hsel' & Hrange & Hcan & _).
        assert (d' = delimiter) by congruence. subst d'.
        assert (Hu : u8 (byte_of_char delimiter) = delimiter)
          by (apply u8_byte_of_char; lia).
        destruct Hin as [E|[E|[]]]; rewrite <- E in Hu; rewrite <- Hu in Hcan;
          discriminate Hcan. }
  rewrite Hsplit. split; [reflexivity|].
  rewrite length_map, length_iota. lia.
Qed.

Lemma concat_json_document_splits_witness :
  split_on (byte_of_char 0)
           (json_object "1" ++ x00 :: bytes_of "{}" ++ x00 :: bytes_of "{}" ++ x00 ::
            bytes_of "{}" ++ x00 :: bytes_of "{}" ++ x00 :: json_object "2")
  = map (payload example_rows) (iota (cudf.size example_rows)).
Proof.
  refine (proj1 (concat_json_document_splits example_rows
                   (cudf.Column cudf.BOOL8 6
                      (cudf.bool_data [false; true; false; true; false; false]) None [])
                   _ 0 _ _ _ _)).
  - vm_compute. reflexivity.
  - simpl. lia.
  - vm_compute. reflexivity.
  - discriminate.
Defined.

Lemma utf8_ok_app (pending : nat) (a b : list byte) :
  utf8_ok pending a = true -> utf8_ok pending (a ++ b) = utf8_ok 0 b.
Proof.
  revert pending. induction a as [|x a IH]; intros pending H.
  - cbn [utf8_ok] in H. apply Nat.eqb_eq in H. now subst.
  - cbn [app utf8_ok] in *. destruct pending as [|pending];
      apply andb_true_iff in H; destruct H as [Hw H]; rewrite Hw; now apply IH.
Qed.

Lemma utf8_ok_join_with (d : byte) (payloads : list (list byte)) :
  is_ascii d -> Forall well_formed_utf8 payloads ->
  well_formed_utf8 (join_with d payloads).
Proof.
  intros Hd Hall. unfold well_formed_utf8 in *.
  induction Hall as [|p payloads Hp Hall IH]; [reflexivity|].
  destruct payloads as [|q payloads]; [exact Hp|].
  change (join_with d (p :: q :: payloads)) with (p ++ d :: join_with d (q :: payloads)).
  rewrite (utf8_ok_app 0 p _ Hp). cbn [utf8_ok].
  rewrite (width_ascii d Hd). exact IH.
Qed.

(** X7.  The document is well-formed UTF-8 whenever the candidate rows are:
    the delimiter is a single-byte character and the rows that are not
    candidates are not copied. *)
Theorem concat_json_document_is_utf8 (input flags : cudf.column) (document : list byte)
        (delimiter : Z) :
  concat_json input = Ok (flags, document, delimiter) ->
  (forall idx, 0 <= idx < cudf.size input -> is_candidate_object input idx = true ->
               well_formed_utf8 (cudf.element input idx)) ->
  well_formed_utf8 document.
Proof.
  intros Hret Hrows.
  pose proof (select_delimiter_of_concat_json _ _ _ _ Hret) as Hsel.
  destruct (concat_json_returns input) as (d & _ & H).
  rewrite Hret in H. injection H as _ -> <-.
  destruct (select_delimiter_returns input) as (d' & Hsel' & Hrange & _).
  assert (d' = delimiter) by congruence. subst d'.
  apply utf8_ok_join_with.
  - unfold is_ascii. rewrite u8_byte_of_char by lia. lia.
  - apply Forall_forall. intros p Hp. apply in_map_iff in Hp.
    destruct Hp as (idx & <- & Hidx). apply in_iota in Hidx.
    unfold payload. destruct (is_candidate_object input idx) eqn:Hc.
    + now apply Hrows.
    + reflexivity.
Qed.

Lemma concat_json_document_is_utf8_witness :
  well_formed_utf8
    (json_object "1" ++ x00 :: bytes_of "{}" ++ x00 :: bytes_of "{}" ++ x00 ::
     bytes_of "{}" ++ x00 :: bytes_of "{}" ++ x00 :: json_object "2").
Proof.
  refine (concat_json_document_is_utf8 example_rows
            (cudf.Column cudf.BOOL8 6
               (cudf.bool_data [false; true; false; true; false; false]) None [])
            _ 0 _ _).
  - vm_compute. reflexivity.
  - intros idx Hidx _.
    assert (Hcases : idx = 0 \/ idx = 1 \/ idx = 2 \/ idx = 3 \/ idx = 4 \/ idx = 5)
      by (simpl in Hidx; lia).
    destruct Hcases as [->|[->|[->|[->|[->| ->]]]]]; reflexivity.
Defined.

(** X17.  The delimiter depends on the input only through the set of byte
    values from 0 to 126 that occur in its chars buffer: two inputs of fewer
    than 2^32 bytes in which the same such bytes occur get the same
    delimiter, however the bytes are spread over rows and whatever bytes
    from 127 on they hold. *)
Theorem concat_json_delimiter_depends_on_low_bytes
        (input1 input2 flags1 flags2 : cudf.column) (document1 document2 : list byte)
        (delimiter1 delimiter2 : Z) :
  concat_json input1 = Ok (flags1, document1, delimiter1) ->
  concat_json input2 = Ok (flags2, document2, delimiter2) ->
  Z.of_nat (length (cudf.chars input1)) < 2 ^ 32 ->
  Z.of_nat (length (cudf.chars input2)) < 2 ^ 32 ->
  (forall c, 0 <= c < 127 ->
             In (byte_of_char c) (cudf.chars input1)
             <-> In (byte_of_char c) (cudf.chars input2)) ->
  delimiter1 = delimiter2.
Proof.
  intros H1 H2 Hs1 Hs2 Hsame.
  apply select_delimiter_of_concat_json in H1, H2.
  destruct (select_delimiter_returns input1) as (d1 & E1 & R1 & C1 & _).
  destruct (select_delimiter_returns input2) as (d2 & E2 & R2 & C2 & _).
  assert (d1 = delimiter1) by congruence. assert (d2 = delimiter2) by congruence.
  subst d1 d2.
  destruct (Z.lt_trichotomy delimiter1 delimiter2) as [Hlt|[Heq|Hgt]]; [|exact Heq|].
  - exfalso.
    pose proof (select_delimiter_least input2 delimiter2 delimiter1 H2 ltac:(lia) C1) as Hin.
    apply Hsame in Hin; [|lia].
    apply (delimiter_absent input1 delimiter1 H1 Hs1); [lia|exact Hin].
  - exfalso.
    pose proof (select_delimiter_least input1 delimiter1 delimiter2 H1 ltac:(lia) C2) as Hin.
    apply Hsame in Hin; [|lia].
    apply (delimiter_absent input2 delimiter2 H2 Hs2); [lia|exact Hin].
Qed.

Lemma concat_json_delimiter_depends_on_low_bytes_witness : 10 = 10.
Proof.
  refine (concat_json_delimiter_depends_on_low_bytes
            control_bytes_column
            (strings_column [map byte_of_char (iota 5); map byte_of_char (iota 10)] None)
            (cudf.Column cudf.BOOL8 1 (cudf.bool_data [false]) None [])
            (cudf.Column cudf.BOOL8 2 (cudf.bool_data [false; false]) None [])
            (bytes_of "{}") (bytes_of "{}" ++ x0a :: bytes_of "{}") 10 10 _ _ _ _ _).
  - vm_compute. reflexivity.
  - vm_compute. reflexivity.
  - vm_compute. reflexivity.
  - vm_compute. reflexivity.
  - intros c Hc. unfold control_bytes_column, strings_column, cudf.chars.
    cbn [cudf.data concat]. rewrite !app_nil_r, in_app_iff, !in_map_iff.
    split.
    + intros (x & Hx & Hin). right. now exists x.
    + intros [(x & Hx & Hin)|(x & Hx & Hin)]; exists x; (split; [exact Hx|]).
      * apply in_iota in Hin. apply in_iota. lia.
      * exact Hin.
Defined.

(** ** [make_structs]: when it fails, and after [concat_json] *)

Lemma check_row_counts_cases (children : list cudf.column) (row_count : Z) :
  detail.check_row_counts children row_count = Ok tt
  \/ exists c, In c children /\ cudf.size c <> row_count.
Proof.
  induction children as [|c children IH]; [now left|].
  destruct (Z.eq_dec (cudf.size c) row_count) as [E|E].
  - destruct IH as [IH|(c' & Hin & Hne)].
    + left. cbn [detail.check_row_counts]. rewrite E, Z.eqb_refl. exact IH.
    + right. exists c'. split; [now right|exact Hne].
  - right. exists c. split; [now left|exact E].
Qed.

(** X8.  [make_structs] throws in one case only: two children that differ in
    their number of rows.  In particular it throws for no is-null column,
    whatever its size, its type or its mask, and the exception is always the
    [cudf::logic_error] of the row-count check. *)
Theorem make_structs_throws_iff (children : list cudf.column) (is_null : cudf.column) :
  ((exists e, make_structs children is_null = Throw e)
   <-> exists c1 c2, In c1 children /\ In c2 children /\ cudf.size c1 <> cudf.size c2)
  /\ forall e, make_structs children is_null = Throw e ->
               e = cudf_logic_error "All columns must have the same number of rows.".
Proof.
  unfold make_structs, detail.make_structs.
  destruct children as [|front rest].
  { split; [split|]; [intros (e & H); discriminate H
                     | intros (c1 & c2 & H & _); contradiction
                     | intros e H; discriminate H]. }
  destruct (check_row_counts_cases (front :: rest) (cudf.size front))
    as [Hok|(c & Hin & Hne)].
  - rewrite Hok. cbn [bind].
    destruct (cudf.valid_if _ _) as [m n].
    split; [split|]; [intros (e & H); discriminate H | | intros e H; discriminate H].
    intros (c1 & c2 & H1 & H2 & Hne). exfalso.
    destruct (Z.eq_dec (cudf.size c1) (cudf.size front)) as [E|E].
    + rewrite (check_row_counts_throw _ _ c2 H2) in Hok by congruence. discriminate Hok.
    + rewrite (check_row_counts_throw _ _ c1 H1 E) in Hok. discriminate Hok.
  - rewrite (check_row_counts_throw _ _ c Hin Hne). cbn [bind].
    split; [split|].
    + intros _. exists c, front. split; [exact Hin|]. split; [now left|exact Hne].
    + intros _. eexists. reflexivity.
    + intros e H. now injection H as <-.
Qed.

(** X9.  The flag column of [concat_json] fits [make_structs]: with children
    of as many rows as the input, the struct column has that many rows and
    row [idx] is valid exactly when the row of the input was not flagged
    null-or-empty. *)
Theorem struct_validity_follows_flags (input flags : cudf.column) (document : list byte)
        (delimiter : Z) (children : list cudf.column) :
  concat_json input = Ok (flags, document, delimiter) ->
  children <> [] ->
  (forall c, In c children -> cudf.size c = cudf.size input) ->
  exists structs,
    make_structs children flags = Ok (Some structs)
    /\ cudf.size structs = cudf.size input
    /\ cudf.children structs = children
    /\ forall idx, 0 <= idx < cudf.size input ->
                   cudf.is_valid structs idx = negb (is_null_or_empty input idx).
Proof.
  intros Hret Hne Hsizes.
  destruct (concat_json_returns input) as (d & _ & H).
  rewrite Hret in H. injection H as -> _ _.
  destruct children as [|front rest]; [congruence|].
  unfold make_structs, detail.make_structs.
  assert (Hfront : cudf.size front = cudf.size input) by (apply Hsizes; now left).
  rewrite Hfront, (check_row_counts_ok _ _ Hsizes). cbn [bind].
  set (range := cudf.bool_range _).
  destruct (cudf.valid_if range negb) as [null_mask null_count] eqn:Hv.
  eexists. split; [reflexivity|]. cbn [cudf.size cudf.children].
  repeat split.
  intros idx Hidx. unfold cudf.is_valid. cbn [cudf.null_mask].
  replace null_mask with (fst (cudf.valid_if range negb)) by now rewrite Hv.
  assert (Hlen : Z.of_nat (length range) = cudf.size input).
  { unfold range, cudf.bool_range. cbn [cudf.size]. rewrite length_map, length_iota. lia. }
  rewrite mask_data_valid_if by lia.
  rewrite bit_is_set_valid_if with (d := false) by lia.
  unfold range, cudf.bool_range. cbn [cudf.size]. rewrite nth_map_iota by lia.
  unfold cudf.element_bool. cbn [cudf.data]. now rewrite nth_map_iota.
Qed.

Lemma struct_validity_follows_flags_witness :
  exists structs,
    make_structs [example_rows]
                 (cudf.Column cudf.BOOL8 6
                    (cudf.bool_data [false; true; false; true; false; false]) None [])
    = Ok (Some structs)
    /\ cudf.size structs = cudf.size example_rows
    /\ cudf.children structs = [example_rows]
    /\ forall idx, 0 <= idx < cudf.size example_rows ->
                   cudf.is_valid structs idx = negb (is_null_or_empty example_rows idx).
Proof.
  refine (struct_validity_follows_flags example_rows _ _ 0 [example_rows] _ _ _).
  - vm_compute. reflexivity.
  - discriminate.
  - intros c [<-|[]]. reflexivity.
Defined.

(** X18.  An is-null column of no rows marks no row.  [valid_if] then
    returns a buffer of no bytes, whose [data()] is the null pointer: the
    struct column is built without a validity mask and every row of it is
    valid, however many rows the children have; nothing is thrown for the
    rows that have no flag. *)
Theorem make_structs_without_flags (children : list cudf.column) (is_null : cudf.column)
        (row_count : Z) :
  children <> [] ->
  (forall c, In c children -> cudf.size c = row_count) ->
  cudf.size is_null = 0 ->
  exists structs,
    make_structs children is_null = Ok (Some structs)
    /\ cudf.size structs = row_count
    /\ cudf.children structs = children
    /\ cudf.nullable structs = false
    /\ forall i, cudf.is_valid structs i = true.
Proof.
  intros Hne Hsizes Hnull.
  destruct children as [|front rest]; [congruence|].
  unfold make_structs, detail.make_structs.
  assert (Hfront : cudf.size front = row_count) by (apply Hsizes; now left).
  rewrite Hfront, (check_row_counts_ok _ _ Hsizes). cbn [bind].
  unfold cudf.bool_range. rewrite Hnull. cbn.
  eexists. split; [reflexivity|]. repeat split.
Qed.

Lemma make_structs_without_flags_witness :
  exists structs,
    make_structs example_children (bools_column []) = Ok (Some structs)
    /\ cudf.size structs = 3
    /\ cudf.children structs = example_children
    /\ cudf.nullable structs = false
    /\ forall i, cudf.is_valid structs i = true.
Proof.
  apply (make_structs_without_flags example_children (bools_column []) 3).
  - discriminate.
  - intros c [<-|[<-|[]]]; reflexivity.
  - reflexivity.
Defined.

(** ** [cast_strings_to_booleans]: the mask and the values under it *)

Lemma count_if_zero_iff {A : Type} (p : A -> bool) (l : list A) :
  count_if p l = 0 <-> forall a, In a l -> p a = false.
Proof.
  split; [intros H a; now apply count_if_zero|].
  intros H. unfold count_if.
  replace (filter p l) with (@nil A); [reflexivity|].
  symmetry. induction l as [|a l IH]; [reflexivity|]. cbn [filter].
  rewrite (H a) by now left. apply IH. intros x Hx. apply H. now right.
Qed.

Lemma boolean_of_row_valid (input : cudf.column) (idx : Z) :
  snd (detail.boolean_of_row input idx) = true
  <-> cudf.is_null input idx = false
      /\ (cudf.element input idx = bytes_of "true"
          \/ cudf.element input idx = bytes_of "false").
Proof.
  unfold detail.boolean_of_row, cudf.is_null.
  destruct (cudf.is_valid input idx); cbn [negb];
    [|split; [discriminate | intros [H _]; discriminate H]].
  match goal with
  | |- context [if ?c then (true, true) else _] => destruct c eqn:Et
  end.
  { apply is_true_literal in Et. cbn [snd]. split; auto. }
  match goal with
  | |- context [if ?c then (false, true) else _] => destruct c eqn:Ef
  end.
  { apply is_false_literal in Ef. cbn [snd]. split; auto. }
  cbn [snd]. split; [discriminate|].
  intros [_ [H|H]].
  - apply is_true_literal in H. congruence.
  - apply is_false_literal in H. congruence.
Qed.

(** X10.  The result of [cast_strings_to_booleans] carries a null mask only
    when it needs one: it has none exactly when every row of the input is a
    non-null [true] or [false].  A row that comes out null holds the value
    [false] in the data. *)
Theorem cast_strings_to_booleans_mask (input : cudf.column) :
  (cudf.null_mask (cast_strings_to_booleans input) = None
   <-> forall idx, 0 <= idx < cudf.size input ->
                   cudf.is_null input idx = false
                   /\ (cudf.element input idx = bytes_of "true"
                       \/ cudf.element input idx = bytes_of "false"))
  /\ forall idx, 0 <= idx < cudf.size input ->
                 cudf.is_valid (cast_strings_to_booleans input) idx = false ->
                 cudf.element_bool (cast_strings_to_booleans input) idx = false.
Proof.
  split.
  - unfold cast_strings_to_booleans, detail.cast_strings_to_booleans, thrust.tabulate.
    set (rows := map (detail.boolean_of_row input) (iota (cudf.size input))).
    destruct (cudf.valid_if (map snd rows) (fun b => b)) as [null_mask null_count] eqn:Hv.
    assert (Hcount : null_count
                     = count_if (fun idx => negb (snd (detail.boolean_of_row input idx)))
                                (iota (cudf.size input))).
    { replace null_count with (snd (cudf.valid_if (map snd rows) (fun b => b)))
        by now rewrite Hv.
      rewrite null_count_valid_if. unfold rows. now rewrite map_map, count_if_map. }
    pose proof (count_if_bounds (fun idx => negb (snd (detail.boolean_of_row input idx)))
                                (iota (cudf.size input))) as Hb.
    destruct (0 <? null_count) eqn:Hpos; cbn [cudf.null_mask].
    + apply Z.ltb_lt in Hpos. split; [discriminate|].
      intros Hall. exfalso.
      assert (Hz : null_count = 0); [|lia].
      rewrite Hcount. apply count_if_zero_iff. intros idx Hidx.
      apply in_iota in Hidx. apply negb_false_iff, boolean_of_row_valid. now apply Hall.
    + apply Z.ltb_ge in Hpos. split; [|reflexivity].
      intros _ idx Hidx. apply boolean_of_row_valid.
      assert (Hz : count_if (fun idx => negb (snd (detail.boolean_of_row input idx)))
                            (iota (cudf.size input)) = 0) by lia.
      apply negb_false_iff. apply (proj1 (count_if_zero_iff _ _) Hz).
      now apply in_iota.
  - intros idx Hidx.
    destruct (boolean_of_row_in_result input idx Hidx) as [-> ->].
    unfold detail.boolean_of_row.
    destruct (cudf.is_valid input idx); [|reflexivity].
    repeat match goal with
           | |- context [if ?c then _ else _] => destruct c
           end; cbn [fst snd]; congruence.
Qed.

(** ** [remove_quotes]: what every row becomes *)

(** X11.  [remove_quotes] returns a strings column of as many rows as its
    input, with the validity of every row unchanged; a null row comes out
    without bytes, whatever bytes lay under it. *)
Theorem remove_quotes_keeps_rows_and_nulls (input : cudf.column) (idx : Z) :
  0 <= idx < cudf.size input ->
  cudf.type (remove_quotes input) = cudf.STRING
  /\ cudf.size (remove_quotes input) = cudf.size input
  /\ cudf.is_valid (remove_quotes input) idx = cudf.is_valid input idx
  /\ (cudf.is_null input idx = true -> cudf.element (remove_quotes input) idx = []).
Proof.
  intros Hidx. split; [reflexivity|]. split; [reflexivity|].
  split; [now apply remove_quotes_validity|].
  intros Hnull. rewrite remove_quotes_row by exact Hidx. cbn zeta.
  unfold detail.output_size_of_row. rewrite Hnull. reflexivity.
Qed.

Lemma remove_quotes_keeps_rows_and_nulls_witness :
  cudf.is_valid (remove_quotes example_quoted) 3 = false
  /\ cudf.element (remove_quotes example_quoted) 3 = [].
Proof.
  assert (Hidx : 0 <= 3 < cudf.size example_quoted) by (simpl; lia).
  destruct (remove_quotes_keeps_rows_and_nulls example_quoted 3 Hidx)
    as (_ & _ & Hvalid & Hnull).
  split; [rewrite Hvalid; reflexivity | apply Hnull; reflexivity].
Defined.

Lemma firstn_skipn_unquoted (s : list byte) :
  1 < cudf.size_bytes s ->
  firstn (Z.to_nat (cudf.size_bytes s - 2)) (skipn 1 s) = unquoted s.
Proof.
  intros Hsize. unfold unquoted. rewrite removelast_firstn_len, length_tl.
  unfold cudf.size_bytes in *. destruct s as [|b s]; [reflexivity|].
  cbn [skipn tl length]. f_equal. lia.
Qed.

(** X12.  For any bytes, a row that is not null comes out of [remove_quotes]
    either as it is, or without its first and its last byte; the latter only
    when the row is longer than one byte and begins with a double quote.  So
    a row of at most one byte, the lone double quote among them, is never
    altered, and no byte inside a row is ever changed. *)
Theorem remove_quotes_row_shape (input : cudf.column) (idx : Z) :
  0 <= idx < cudf.size input ->
  cudf.is_null input idx = false ->
  cudf.element (remove_quotes input) idx = cudf.element input idx
  \/ (1 < cudf.size_bytes (cudf.element input idx)
      /\ hd x00 (cudf.element input idx) = x22
      /\ cudf.element (remove_quotes input) idx = unquoted (cudf.element input idx)).
Proof.
  intros Hidx Hnull. rewrite remove_quotes_row by exact Hidx. cbn zeta.
  unfold detail.output_size_of_row. rewrite Hnull.
  set (s := cudf.element input idx).
  match goal with |- context [if ?c then _ - 2 else _] => destruct c eqn:Hq end.
  - right. apply andb_true_iff in Hq. destruct Hq as [Hq _].
    apply andb_true_iff in Hq. destruct Hq as [Hsize Hfirst].
    apply Z.ltb_lt in Hsize. apply Z.eqb_eq in Hfirst.
    apply char_at_first in Hfirst; [|vm_compute; split; reflexivity].
    destruct Hfirst as [_ Hfirst].
    split; [exact Hsize|]. split; [apply u8_inj; exact Hfirst|].
    replace (cudf.size_bytes s =? cudf.size_bytes s - 2) with false
      by (symmetry; apply Z.eqb_neq; lia).
    now apply firstn_skipn_unquoted.
  - left. rewrite Z.eqb_refl. cbn [skipn]. unfold cudf.size_bytes.
    rewrite Nat2Z.id. apply firstn_all.
Qed.

Lemma remove_quotes_row_shape_witness :
  cudf.element (remove_quotes example_quoted) 1 = cudf.element example_quoted 1
  \/ (1 < cudf.size_bytes (cudf.element example_quoted 1)
      /\ hd x00 (cudf.element example_quoted 1) = x22
      /\ cudf.element (remove_quotes example_quoted) 1
         = unquoted (cudf.element example_quoted 1)).
Proof.
  apply (remove_quotes_row_shape example_quoted 1); [simpl; lia | reflexivity].
Defined.

Lemma count_if_all {A : Type} (p : A -> bool) (l : list A) :
  count_if p l = Z.of_nat (length l) -> Forall (fun a => p a = true) l.
Proof.
  induction l as [|a l IH]; intros H; [constructor|].
  rewrite count_if_cons in H. cbn [length] in H.
  pose proof (count_if_bounds p l) as Hb.
  destruct (p a) eqn:Hp; cbn [b2z] in H; [|lia].
  constructor; [exact Hp|]. apply IH. lia.
Qed.

Lemma width_one_ascii (b : byte) : cudf.bytes_in_utf8_byte (u8 b) = 1 -> is_ascii b.
Proof. unfold is_ascii. destruct b; vm_compute; intros H; try reflexivity; discriminate H. Qed.

Lemma utf8_ok_of_lead_bytes (s : list byte) :
  Forall (fun b => cudf.is_begin_utf8_char (u8 b) = true) s ->
  utf8_ok 0 s = true -> Forall is_ascii s.
Proof.
  intros Hall. induction Hall as [|b s Hb Hall IH]; intros Hok; [constructor|].
  cbn [utf8_ok] in Hok. apply andb_true_iff in Hok. destruct Hok as [Hw Hok].
  apply Z.leb_le in Hw. rewrite is_begin_width in Hb.
  assert (Hone : cudf.bytes_in_utf8_byte (u8 b) = 1).
  { destruct (Z.eq_dec (cudf.bytes_in_utf8_byte (u8 b)) 1) as [E|E]; [exact E|].
    exfalso.
    assert (Hp : exists p, Z.to_nat (cudf.bytes_in_utf8_byte (u8 b) - 1) = S p)
      by (exists (Z.to_nat (cudf.bytes_in_utf8_byte (u8 b) - 2)); lia).
    destruct Hp as (p & Hp). rewrite Hp in Hok.
    destruct Hall as [|c s Hc Hall]; [discriminate Hok|].
    cbn [utf8_ok] in Hok. apply andb_true_iff in Hok. destruct Hok as [Hc0 _].
    rewrite is_begin_width, Hc0 in Hc. discriminate Hc. }
  constructor; [now apply width_one_ascii|].
  apply IH. now rewrite Hone in Hok.
Qed.

(** A row of well-formed UTF-8 either holds single-byte characters only or
    has fewer characters than bytes. *)
Lemma well_formed_row_cases (s : list byte) :
  well_formed_utf8 s ->
  (cudf.characters_in_string s = cudf.size_bytes s /\ Forall is_ascii s)
  \/ cudf.characters_in_string s <> cudf.size_bytes s.
Proof.
  intros Hok.
  destruct (Z.eq_dec (cudf.characters_in_string s) (cudf.size_bytes s)) as [E|E];
    [left|now right].
  split; [exact E|]. apply utf8_ok_of_lead_bytes; [|exact Hok].
  now apply count_if_all.
Qed.

(** X13.  On a row of well-formed UTF-8 that is not null, [remove_quotes]
    strips the two quotes exactly when the row is quoted and all its
    characters are single bytes; every other row, a quoted row with a
    multi-byte character included, is returned as it is. *)
Theorem remove_quotes_of_well_formed_row (input : cudf.column) (idx : Z) :
  0 <= idx < cudf.size input ->
  cudf.is_null input idx = false ->
  well_formed_utf8 (cudf.element input idx) ->
  cudf.element (remove_quotes input) idx
  = if quoted (cudf.element input idx)
       && (cudf.characters_in_string (cudf.element input idx)
           =? cudf.size_bytes (cudf.element input idx))
    then unquoted (cudf.element input idx)
    else cudf.element input idx.
Proof.
  intros Hidx Hnull Hok.
  destruct (well_formed_row_cases _ Hok) as [[Heq Hascii]|Hne].
  - rewrite Heq, Z.eqb_refl, andb_true_r.
    now apply remove_quotes_single_byte_rows.
  - replace (_ =? _) with false by (symmetry; apply Z.eqb_neq; exact Hne).
    rewrite andb_false_r. now apply remove_quotes_multibyte_rows.
Qed.

Lemma remove_quotes_of_well_formed_row_witness :
  cudf.element (remove_quotes example_quoted) 0 = bytes_of "abc".
Proof.
  apply (remove_quotes_of_well_formed_row example_quoted 0);
    [simpl; lia | reflexivity | reflexivity].
Defined.

Lemma Forall_removelast {A : Type} (P : A -> Prop) (l : list A) :
  Forall P l -> Forall P (removelast l).
Proof.
  induction 1 as [|a l Ha Hl IH]; [constructor|].
  cbn [removelast]. destruct l; [constructor|]. now constructor.
Qed.

Lemma ascii_well_formed (s : list byte) : Forall is_ascii s -> well_formed_utf8 s.
Proof.
  intros H. unfold well_formed_utf8.
  rewrite <- (app_nil_r s), utf8_ok_after_ascii by assumption. reflexivity.
Qed.

Lemma unquoted_ascii (s : list byte) : Forall is_ascii s -> Forall is_ascii (unquoted s).
Proof.
  intros H. unfold unquoted. apply Forall_removelast.
  destruct H; [constructor|assumption].
Qed.

(** X14.  [remove_quotes] keeps rows well-formed: a row of well-formed UTF-8
    comes out as well-formed UTF-8, null or not. *)
Theorem remove_quotes_keeps_utf8 (input : cudf.column) (idx : Z) :
  0 <= idx < cudf.size input ->
  well_formed_utf8 (cudf.element input idx) ->
  well_formed_utf8 (cudf.element (remove_quotes input) idx).
Proof.
  intros Hidx Hok.
  destruct (cudf.is_null input idx) eqn:Hnull.
  - rewrite remove_quotes_row by exact Hidx. cbn zeta.
    unfold detail.output_size_of_row. rewrite Hnull. reflexivity.
  - destruct (well_formed_row_cases _ Hok) as [[Heq Hascii]|Hne].
    + rewrite remove_quotes_single_byte_rows by assumption.
      destruct (quoted _); [|exact Hok].
      now apply ascii_well_formed, unquoted_ascii.
    + now rewrite remove_quotes_multibyte_rows.
Qed.

Lemma remove_quotes_keeps_utf8_witness :
  well_formed_utf8 (cudf.element (remove_quotes example_quoted) 4).
Proof.
  apply (remove_quotes_keeps_utf8 example_quoted 4); [simpl; lia | reflexivity].
Defined.

(** X15.  A second pass of [remove_quotes] changes a row of well-formed UTF-8
    only if the first pass left it quoted: when the row that comes out of the
    first pass is not quoted, the second pass returns it as it is. *)
Theorem remove_quotes_twice (input : cudf.column) (idx : Z) :
  0 <= idx < cudf.size input ->
  cudf.is_null input idx = false ->
  well_formed_utf8 (cudf.element input idx) ->
  quoted (cudf.element (remove_quotes input) idx) = false ->
  cudf.element (remove_quotes (remove_quotes input)) idx
  = cudf.element (remove_quotes input) idx.
Proof.
  intros Hidx Hnull Hok Hq.
  assert (Hidx' : 0 <= idx < cudf.size (remove_quotes input)) by exact Hidx.
  assert (Hnull' : cudf.is_null (remove_quotes input) idx = false).
  { unfold cudf.is_null in *. now rewrite remove_quotes_validity. }
  destruct (well_formed_row_cases _ Hok) as [[Heq Hascii]|Hne].
  - assert (Hascii' : Forall is_ascii (cudf.element (remove_quotes input) idx)).
    { rewrite remove_quotes_single_byte_rows by assumption.
      destruct (quoted (cudf.element input idx)); [now apply unquoted_ascii|exact Hascii]. }
    rewrite (remove_quotes_single_byte_rows (remove_quotes input) idx Hidx' Hnull' Hascii').
    now rewrite Hq.
  - assert (Hsame : cudf.element (remove_quotes input) idx = cudf.element input idx)
      by now apply remove_quotes_multibyte_rows.
    apply remove_quotes_multibyte_rows; try assumption; now rewrite Hsame.
Qed.

Lemma remove_quotes_twice_witness :
  cudf.element (remove_quotes (remove_quotes example_quoted)) 0 = bytes_of "abc".
Proof.
  apply (remove_quotes_twice example_quoted 0);
    [simpl; lia | reflexivity | reflexivity | reflexivity].
Defined.
